(** * stormaudio.protocol: the AVR protocol handler

    A shallow embedding of [stormaudio/protocol.py] (class [AVR]) and the
    properties of its framer, parser, command encoder, power-on refresh
    loop and typed property facade.

    Conventions of the embedding:
    - Python [bytes] values are Rocq [string]s, one character per octet; a
      Python [str] is held as its UTF-8 octets. [bytes.decode()] checks that
      the octets are well-formed UTF-8 and raises [UnicodeDecodeError]
      otherwise; every separator the parser looks for is ASCII, so cutting
      and comparing octets agrees with cutting and comparing characters.
    - The instance attributes created with [setattr(self, '_'+key, ...)]
      live in a finite map from attribute name to value.
    - Methods are computations in a state-and-exception monad over the
      instance: a raised exception keeps the mutations made so far, as in
      Python.
    - [self.log.*], [print] and [time.sleep] have no effect on the instance
      and are left out. *)

From Stdlib Require Import ZArith String Ascii List Bool Lia QArith.
From stdpp Require Import base option list gmap strings pretty.

Local Open Scope string_scope.

(** ** Python string primitives *)

Module PyStr.

(** [c in chars] for a character and a string of characters. *)
Fixpoint mem (c : ascii) (chars : string) : bool :=
  match chars with
  | EmptyString => false
  | String d rest => if Ascii.eqb c d then true else mem c rest
  end.

(** [data.startswith(key)]. *)
Definition startswith (data key : string) : bool := String.prefix key data.

(** [s.split(sep)] for a one-character separator: every occurrence cuts,
    and empty pieces are kept. *)
Fixpoint split (sep : ascii) (s : string) : list string :=
  match s with
  | EmptyString => [EmptyString]
  | String c rest =>
      if Ascii.eqb c sep then EmptyString :: split sep rest
      else match split sep rest with
           | [] => [String c EmptyString]
           | piece :: pieces => String c piece :: pieces
           end
  end.

(** [s.split(sep, maxsplit)]: at most [maxsplit] cuts, from the left. *)
Fixpoint splitn (sep : ascii) (maxsplit : nat) (s : string) {struct s}
  : list string :=
  match maxsplit with
  | O => [s]
  | S n =>
      match s with
      | EmptyString => [EmptyString]
      | String c rest =>
          if Ascii.eqb c sep then EmptyString :: splitn sep n rest
          else match splitn sep (S n) rest with
               | [] => [String c EmptyString]
               | piece :: pieces => String c piece :: pieces
               end
      end
  end.

(** [l[-1]] on a non-empty list of strings. *)
Definition last_item (l : list string) : string := List.last l EmptyString.

Fixpoint lstrip (chars : string) (s : string) : string :=
  match s with
  | EmptyString => EmptyString
  | String c rest => if mem c chars then lstrip chars rest else s
  end.

Fixpoint rstrip (chars : string) (s : string) : string :=
  match s with
  | EmptyString => EmptyString
  | String c rest =>
      match rstrip chars rest with
      | EmptyString => if mem c chars then EmptyString else String c EmptyString
      | kept => String c kept
      end
  end.

(** [s.strip(chars)]. *)
Definition strip (chars : string) (s : string) : string :=
  rstrip chars (lstrip chars s).

(** The characters [int] skips around the literal of an ASCII string:
    tab, line feed, vertical tab, form feed, carriage return and space. *)
Definition whitespace : string :=
  String (ascii_of_nat 9) (String (ascii_of_nat 10) (String (ascii_of_nat 11)
  (String (ascii_of_nat 12) (String (ascii_of_nat 13)
  (String (ascii_of_nat 32) EmptyString))))).

(** Every character is below 128. *)
Fixpoint is_ascii (s : string) : bool :=
  match s with
  | EmptyString => true
  | String c rest => (nat_of_ascii c <? 128)%nat && is_ascii rest
  end.

Definition digit_value (c : ascii) : option Z :=
  let n := Z.of_nat (nat_of_ascii c) in
  if (48 <=? n)%Z && (n <=? 57)%Z then Some (n - 48)%Z else None.

(** The digits of a decimal literal: at least one digit, single
    underscores allowed between digits. [acc] is the value read so far,
    [after_digit] tells whether the previous character was a digit. *)
Fixpoint digits (acc : Z) (after_digit : bool) (s : string) : option Z :=
  match s with
  | EmptyString => if after_digit then Some acc else None
  | String c rest =>
      match digit_value c with
      | Some d => digits (10 * acc + d)%Z true rest
      | None =>
          if Ascii.eqb c "_"%char && after_digit
          then match rest with
               | EmptyString => None
               | String c' _ =>
                   match digit_value c' with
                   | Some _ => digits acc false rest
                   | None => None
                   end
               end
          else None
      end
  end.

(** The number of digit characters of a literal. *)
Fixpoint count_digits (s : string) : Z :=
  match s with
  | EmptyString => 0%Z
  | String c rest =>
      ((match digit_value c with Some _ => 1 | None => 0 end)
       + count_digits rest)%Z
  end.

(** The interpreter's default bound on the digits of a decimal literal
    ([sys.get_int_max_str_digits()]). *)
Definition max_str_digits : Z := 4300%Z.

(** A decimal literal without its sign: refused when it has more than
    [max_str_digits] digits. *)
Definition literal (body : string) : option Z :=
  if (count_digits body <=? max_str_digits)%Z then digits 0 false body
  else None.

(** [int(s)] for an ASCII string: surrounding whitespace is dropped, an
    optional sign is read, then a decimal literal; [None] stands for
    [ValueError]. *)
Definition int_of_str (s : string) : option Z :=
  match strip whitespace s with
  | String "-"%char rest => Z.opp <$> literal rest
  | String "+"%char rest => literal rest
  | body => literal body
  end.

(** [bytes.decode()] reads well-formed UTF-8 only. The scanner below goes
    through the octets one at a time; its state is what the next octet has
    to be. *)
Inductive utf8_state :=
| Lead            (* the first octet of a character *)
| Cont (n : nat)  (* [S n] more continuation octets, [80..BF] *)
| AfterE0         (* [A0..BF], then one continuation: no overlong form *)
| AfterED         (* [80..9F], then one continuation: no surrogate *)
| AfterF0         (* [90..BF], then two continuations: no overlong form *)
| AfterF4.        (* [80..8F], then two continuations: at most U+10FFFF *)

Definition between (lo hi : nat) (c : ascii) : bool :=
  let n := nat_of_ascii c in ((lo <=? n) && (n <=? hi))%nat.

Definition utf8_step (st : utf8_state) (c : ascii) : option utf8_state :=
  match st with
  | Lead =>
      if between 0 127 c then Some Lead
      else if between 194 223 c then Some (Cont 0)
      else if between 224 224 c then Some AfterE0
      else if between 225 236 c then Some (Cont 1)
      else if between 237 237 c then Some AfterED
      else if between 238 239 c then Some (Cont 1)
      else if between 240 240 c then Some AfterF0
      else if between 241 243 c then Some (Cont 2)
      else if between 244 244 c then Some AfterF4
      else None
  | Cont O => if between 128 191 c then Some Lead else None
  | Cont (S n) => if between 128 191 c then Some (Cont n) else None
  | AfterE0 => if between 160 191 c then Some (Cont 0) else None
  | AfterED => if between 128 159 c then Some (Cont 0) else None
  | AfterF0 => if between 144 191 c then Some (Cont 1) else None
  | AfterF4 => if between 128 143 c then Some (Cont 1) else None
  end.

Fixpoint utf8_scan (st : utf8_state) (octets : string) : option utf8_state :=
  match octets with
  | EmptyString => Some st
  | String c rest =>
      match utf8_step st c with
      | Some st' => utf8_scan st' rest
      | None => None
      end
  end.

(** The octets are a sequence of complete, well-formed characters. *)
Definition utf8_valid (octets : string) : bool :=
  match utf8_scan Lead octets with
  | Some Lead => true
  | _ => false
  end.

End PyStr.

Local Open Scope list_scope.
Local Open Scope Z_scope.

(** The line feed, ['\n']. *)
Definition LF : ascii := ascii_of_nat 10.

(** ** Module-level tables *)

(** [ATTR_CORE], a Python set: its members, without an iteration order. *)
Definition ATTR_CORE : list string := ["Z1POW"; "IDM"].

(** [LOOKUP], in insertion order (the order [for key in LOOKUP] visits). Each
    entry is the key's own dictionary: ['description'] and the value labels. *)
Definition LOOKUP : list (string * list (string * string)) :=
  [ ("ssp.procstate", [("description", "Processor Status"); ("0", "Off");
                       ("1", "Starting / Stopping"); ("2", "On")]);
    ("ssp.power", [("description", "Power")]);
    ("ssp.version", [("description", "Version Number")]);
    ("ssp.brand", [("description", "Brand")]);
    ("ssp.msgstatus", [("description", "Message Status Group"); ("0", "");
                       ("1", "Backup parameters in progress");
                       ("2", "Restore parameters in progress");
                       ("3", "Selective parameters in progress");
                       ("4", "Reset parameters in progress");
                       ("5", "Firmware upgrade in progress");
                       ("6", "Loading Dirac room calibration");
                       ("98", "String Message"); ("99", "")]);
    ("ssp.input", [("description", "Input")]);
    ("ssp.input.list", [("description", "List all configured inputs")]);
    ("ssp.preset", [("description", "Preset")]);
    ("ssp.surroundmode", [("description", "Surround Mode")]);
    ("ssp.allowedmode", [("description", "Active Surround Modes")]);
    ("ssp.speaker", [("description", "Speaker Config ID")]);
    ("ssp.mute", [("description", "Mute status")]);
    ("ssp.dim", [("description", "Dim status")]);
    ("ssp.vol", [("description", "Volume Level")]);
    ("ssp.bass", [("description", "Bass Level")]);
    ("ssp.treb", [("description", "Treble Level")]);
    ("ssp.brightness", [("description", "Brightness Level")]);
    ("ssp.c_en", [("description", "Center Enhance")]);
    ("ssp.s_en", [("description", "Surround Enhance")]);
    ("ssp.lipsync", [("description", "Lip Sync Level")]);
    ("ssp.sub_en", [("description", "Subwoofer Enhance")]);
    ("ssp.aurostrength", [("description", "Auro Strength")]);
    ("ssp.auropreset", [("description", "Auro Preset"); ("0", "Small");
                        ("1", "Medium"); ("2", "Large"); ("3", "Speech")]);
    ("ssp.drc", [("description", "DRC Status")]);
    ("ssp.cspread", [("description", "Center Spread")]);
    ("ssp.dialogcontrol", [("description", "Dialog Control")]);
    ("ssp.dialognorm", [("description", "Dialog Norm")]);
    ("ssp.IMAXMode", [("description", "IMAX Mode")]);
    ("ssp.spheraudioeffect", [("description", "SphereAudio Effect");
                              ("0", "ByPass"); ("1", "Lounge");
                              ("2", "Home Cinema"); ("3", "Concert");
                              ("4", "Cinema")]);
    ("ssp.lfedim", [("description", "LFE Dim")]);
    ("ssp.zones.list", [("description", "")]);
    ("ssp.frontpanel.color", [("description", "Front Panel Color")]);
    ("ssp.frontpanel.stbybright",
       [("description", "Front Panel Standby Brightness")]);
    ("ssp.frontpanel.actbright",
       [("description", "Front Panel Active Brightness")]);
    ("ssp.frontpanel.stbydelay", [("description", "Front Panel Standby Delay")]);
    ("ssp.fs", [("description", "Sample Rate")]);
    ("ssp.stream", [("description", "Stream Type")]);
    ("ssp.format", [("description", "Format Code")]);
    ("ssp.trig1", [("description", "Trigger 1")]) ].

(** The keys [for key in LOOKUP] iterates over. *)
Definition LOOKUP_keys : list string := map fst LOOKUP.

(** The names the module defines or imports at top level; any other bare
    name in a method body raises [NameError] when evaluated. *)
Definition module_globals : list string :=
  ["asyncio"; "logging"; "time"; "numbers"; "ensure_future"; "ATTR_CORE";
   "LOOKUP"; "AVR"].

(** ** Values, exceptions and the instance *)

(** The Python values callers hand to setters and to [set_value]. *)
Inductive pyval :=
| PyBool (b : bool)
| PyInt (z : Z)
| PyStr (s : string).

(** [str(value)], as ['{}'.format(value)] renders it. *)
Definition py_str (v : pyval) : string :=
  match v with
  | PyBool true => "True"
  | PyBool false => "False"
  | PyInt z => pretty z
  | PyStr s => s
  end.

(** [isinstance(value, int)], with the integer it stands for ([bool] is a
    subclass of [int]). *)
Definition as_int (v : pyval) : option Z :=
  match v with
  | PyBool b => Some (if b then 1 else 0)
  | PyInt z => Some z
  | PyStr _ => None
  end.

(** [UnicodeDecodeError] is a [ValueError] in Python; it is kept apart here
    because it is raised by [data_received] only, outside every [try]. *)
Inductive exn :=
  AttributeError | NameError | ValueError | TypeError | UnicodeDecodeError.

Inductive outcome (A : Type) :=
| Ok (a : A)
| Raise (e : exn).
Arguments Ok {A} a.
Arguments Raise {A} e.

(** What [transport.write] is handed: a [str] or a [bytes] object. *)
Inductive payload :=
| Text (s : string)
| Bytes (s : string).

(** The transport, an external collaborator: it records the writes it is
    handed, in order and whatever their type, and whether reading is
    paused. *)
Record Transport := mkTransport {
  written : list payload;
  reading_paused : bool }.

(** Callbacks handed to the event loop. *)
Inductive callback :=
| cb_poweron_refresh
| cb_update (data : string)
| cb_connection_lost.

(** A request made to the event loop: [call_soon(cb)] or
    [call_later(delay, cb)]. *)
Inductive scheduled :=
| Soon (cb : callback)
| Later (delay : Z) (cb : callback).

#[export] Instance callback_eq_dec : EqDecision callback.
Proof. solve_decision. Defined.

#[export] Instance scheduled_eq_dec : EqDecision scheduled.
Proof. solve_decision. Defined.

#[export] Instance payload_eq_dec : EqDecision payload.
Proof. solve_decision. Defined.

(** The instance. [_loop] and [transport] are [None] when absent;
    [_update_callback] and [_connection_lost_callback] record whether a
    callable was supplied; [attrs] holds the attributes made by [setattr]. *)
Record AVR := mkAVR {
  _loop : option (list scheduled);
  _connection_lost_callback : bool;
  _update_callback : bool;
  buffer : string;
  _input_names : gmap Z string;
  _input_numbers : gmap string Z;
  _poweron_refresh_successful : bool;
  transport : option Transport;
  attrs : gmap string string }.

Definition with_loop (l : option (list scheduled)) (s : AVR) : AVR :=
  mkAVR l (_connection_lost_callback s) (_update_callback s) (buffer s)
        (_input_names s) (_input_numbers s) (_poweron_refresh_successful s)
        (transport s) (attrs s).

Definition with_buffer (b : string) (s : AVR) : AVR :=
  mkAVR (_loop s) (_connection_lost_callback s) (_update_callback s) b
        (_input_names s) (_input_numbers s) (_poweron_refresh_successful s)
        (transport s) (attrs s).

Definition with_flag (f : bool) (s : AVR) : AVR :=
  mkAVR (_loop s) (_connection_lost_callback s) (_update_callback s) (buffer s)
        (_input_names s) (_input_numbers s) f (transport s) (attrs s).

Definition with_transport (t : option Transport) (s : AVR) : AVR :=
  mkAVR (_loop s) (_connection_lost_callback s) (_update_callback s) (buffer s)
        (_input_names s) (_input_numbers s) (_poweron_refresh_successful s)
        t (attrs s).

Definition with_attrs (a : gmap string string) (s : AVR) : AVR :=
  mkAVR (_loop s) (_connection_lost_callback s) (_update_callback s) (buffer s)
        (_input_names s) (_input_numbers s) (_poweron_refresh_successful s)
        (transport s) a.

(** ** The monad of methods *)

Definition M (A : Type) : Type := AVR -> outcome A * AVR.

#[export] Instance M_ret : MRet M := fun A a s => (Ok a, s).

#[export] Instance M_bind : MBind M := fun A B f m s =>
  match m s with
  | (Ok a, s') => f a s'
  | (Raise e, s') => (Raise e, s')
  end.

Definition raise {A} (e : exn) : M A := fun s => (Raise e, s).

(** [try: body / except: handler], a bare [except] that catches everything. *)
Definition try_except {A} (body : M A) (handler : exn -> M A) : M A := fun s =>
  match body s with
  | (Ok a, s') => (Ok a, s')
  | (Raise e, s') => handler e s'
  end.

Definition gets {A} (f : AVR -> A) : M A := fun s => (Ok (f s), s).
Definition modify (f : AVR -> AVR) : M unit := fun s => (Ok tt, f s).

(** [for x in xs: body(x)]. *)
Fixpoint for_each {A} (xs : list A) (body : A -> M unit) : M unit :=
  match xs with
  | [] => mret tt
  | x :: rest => body x ;; for_each rest body
  end.

(** The state a method leaves behind, whether it returned or raised. *)
Definition exec {A} (m : M A) (s : AVR) : AVR := snd (m s).
(** What a method returned or raised. *)
Definition result {A} (m : M A) (s : AVR) : outcome A := fst (m s).

(** ** Attribute, event-loop and transport primitives *)

(** ['\n'] as a string. *)
Definition NL : string := String LF "".

(** [getattr(self, name)] for the attributes [setattr] creates; a missing
    attribute raises [AttributeError]. None of the names looked up this way
    is a constructor-made field or a class attribute. *)
Definition getattr (name : string) : M string := fun s =>
  match attrs s !! name with
  | Some v => (Ok v, s)
  | None => (Raise AttributeError, s)
  end.

(** [setattr(self, name, value)]. *)
Definition setattr (name value : string) : M unit :=
  modify (fun s => with_attrs (<[name := value]> (attrs s)) s).

(** Evaluating [name.attr] for a bare (global) [name]: [NameError] when the
    module binds no such name; the names it does bind are modules, a set, a
    dict and a class, none with the attributes asked for here. *)
Definition global_attr (name attr : string) : M string :=
  if bool_decide (name ∈ module_globals)
  then raise AttributeError
  else raise NameError.

(** [self._loop.call_soon(...)] and [self._loop.call_later(...)]: the request
    is queued; with [_loop] being [None] the attribute access raises. *)
Definition loop_call (req : scheduled) : M unit := fun s =>
  match _loop s with
  | None => (Raise AttributeError, s)
  | Some queue => (Ok tt, with_loop (Some (queue ++ [req])) s)
  end.

(** [self.transport.write(data)]. *)
Definition transport_write (data : payload) : M unit := fun s =>
  match transport s with
  | None => (Raise AttributeError, s)
  | Some t =>
      (Ok tt,
       with_transport (Some (mkTransport (written t ++ [data]) (reading_paused t))) s)
  end.

(** [self.transport.pause_reading()] and [self.transport.resume_reading()]. *)
Definition transport_set_paused (paused : bool) : M unit := fun s =>
  match transport s with
  | None => (Raise AttributeError, s)
  | Some t => (Ok tt, with_transport (Some (mkTransport (written t) paused)) s)
  end.

(** [int(value)] on a string of ASCII text. *)
Definition int_ (value : string) : M Z :=
  match PyStr.int_of_str value with
  | Some z => mret z
  | None => raise ValueError
  end.

(** [s.zfill(width)]: zeros are inserted after a leading sign. *)
Definition zfill (width : nat) (s : string) : string :=
  let zeros := string_of_list_ascii
                 (repeat "0"%char (width - String.length s)) in
  match s with
  | String "-"%char rest => String "-"%char (zeros +:+ rest)
  | String "+"%char rest => String "+"%char (zeros +:+ rest)
  | _ => zeros +:+ s
  end.

(** ** Methods of [AVR] *)

(** [AVR(update_callback, loop, connection_lost_callback)]: each argument
    tells whether the object was supplied; a supplied loop starts with no
    request from this instance. *)
Definition __init__ (update_callback loop connection_lost_callback : bool) : AVR :=
  let self :=
    mkAVR (if loop then Some [] else None) connection_lost_callback
          update_callback "" ∅ ∅ false None ∅ in
  exec (for_each LOOKUP_keys (fun key => setattr ("_" +:+ key) "")) self.

(** [command(command)]: the argument goes to the transport as it is; any
    exception of the write is swallowed. *)
Definition command (cmd : payload) : M unit :=
  try_except (transport_write cmd) (fun _ => mret tt).

Definition query (item : string) : M unit := command (Text item).

Definition special_values : list string := ["on"; "off"; "toggle"; "up"; "down"].

(** [value in special_values]: a string equal to one of the list's members;
    an [int] or [bool] equals none of them. *)
Definition in_special_values (value : pyval) : bool :=
  match value with
  | PyStr s => existsb (String.eqb s) special_values
  | _ => false
  end.

(** The text [set_value] formats, before [.encode()]. *)
Definition command_to_send (cmd : string) (value : pyval) : string :=
  if in_special_values value
  then cmd +:+ "." +:+ py_str value +:+ NL
  else cmd +:+ ".[" +:+ py_str value +:+ "]" +:+ NL.

Definition set_value (cmd : string) (value : pyval) : M unit :=
  command (Bytes (command_to_send cmd value)).

(** [refresh_core]: [order] is the order in which the set [ATTR_CORE] happens
    to be iterated. *)
Definition refresh_core (order : list string) : M unit :=
  for_each order query.

Definition refresh_all : M unit := for_each LOOKUP_keys query.

Definition poweron_refresh : M unit :=
  successful ← gets _poweron_refresh_successful;
  if (successful : bool) then mret tt
  else refresh_all ;; loop_call (Later 2 cb_poweron_refresh).

Definition connection_made (t : Transport) (order : list string) : M unit :=
  modify (with_transport (Some t)) ;;
  command (Text "ECH1") ;;
  refresh_core order.

Definition connection_lost : M unit :=
  modify (with_transport None) ;;
  cb ← gets _connection_lost_callback;
  if (cb : bool) then loop_call (Soon cb_connection_lost) else mret tt.

Definition _populate_inputs (total : Z) : M unit :=
  for_each (seqZ 1 total)
           (fun input_number => query ("ISN" +:+ zfill 2 (pretty input_number))).

(** The value [_parse_message] extracts: [data.split('.',2)[-1].strip('[]')]. *)
Definition parsed_value (data : string) : string :=
  PyStr.strip "[]" (PyStr.last_item (PyStr.splitn "."%char 2 data)).

(** The key the [for key in LOOKUP] loop stops at: the first one, in schema
    order, that [data] starts with. *)
Definition matched_key (data : string) : option string :=
  List.find (PyStr.startswith data) LOOKUP_keys.

(** [_parse_message(data)]. The method returns nothing; the embedding
    returns its locals [(recognized, newdata)] as they stand at the end. *)
Definition _parse_message (data : string) : M (bool * bool) :=
  flags ←
    (if PyStr.startswith data "ssp.zones" then mret (true, false)
     else match matched_key data with
          | None => mret (false, false)
          | Some key =>
              let value := parsed_value data in
              oldvalue ← getattr ("_" +:+ key);
              let newdata := negb (String.eqb oldvalue value) in
              setattr ("_" +:+ key) value ;;
              (if String.eqb key "ssp.power" && String.eqb value "1"
                  && String.eqb oldvalue "0"
               then modify (with_flag false) ;;
                    loop_call (Later 1 cb_poweron_refresh)
               else mret tt) ;;
              mret (true, newdata)
          end);
  (if (snd flags : bool)
   then cb ← gets _update_callback;
        if (cb : bool) then loop_call (Soon (cb_update data)) else mret tt
   else mret tt) ;;
  mret flags.

Definition _assemble_buffer : M unit :=
  transport_set_paused true ;;
  buf ← gets buffer;
  for_each (PyStr.split LF buf)
           (fun message =>
              if String.eqb message "" then mret tt
              else _parse_message message ;; mret tt) ;;
  modify (with_buffer "") ;;
  transport_set_paused false.

(** [data.decode()]: the text of well-formed UTF-8 octets,
    [UnicodeDecodeError] for any other. *)
Definition decode (data : string) : M string :=
  if PyStr.utf8_valid data then mret data else raise UnicodeDecodeError.

(** [data_received(data)]: [self.buffer += data.decode()], then
    [_assemble_buffer()]. The decoding comes first: when it raises, the
    buffer has not been assigned. *)
Definition data_received (data : string) : M unit :=
  text ← decode data;
  modify (fun s => with_buffer (buffer s +:+ text) s) ;;
  _assemble_buffer.

(** ** The typed property facade *)

(** The getter of [attenuation]:
    [try: return int(getattr(self, ssp.vol))], with [ValueError] and
    [NameError] answered by [-100]. *)
Definition attenuation : M Z :=
  try_except
    (name ← global_attr "ssp" "vol";
     value ← getattr name;
     int_ value)
    (fun e => match e with
              | ValueError | NameError => mret (-100)
              | _ => raise e
              end).

(** The setter of [attenuation] ([numbers.Number] restricted to the integers
    and booleans of [pyval]); the value is passed on as it is. *)
Definition set_attenuation (value : pyval) : M unit :=
  match as_int value with
  | Some z => if (-100 <? z) && (z <=? 0) then set_value "ssp.vol" value
              else mret tt
  | None => mret tt
  end.

(** The getter of [volume]: [getattr(self, 'ssp.vol')]. *)
Definition volume : M string := getattr "ssp.vol".

(** The setter of [volume]. *)
Definition set_volume (value : pyval) : M unit :=
  match as_int value with
  | Some z => if (0 <=? z) && (z <? 100)
              then set_value "ssp.vol" (PyInt (-1 * z))
              else mret tt
  | None => mret tt
  end.

(** The getter of [volume_as_percentage]: [(100 - self.volume) / 100]. What
    [self.volume] returns is a string, and [100 - str] is a [TypeError]. *)
Definition volume_as_percentage : M Q :=
  _ ← volume;
  raise TypeError.

(** The setter of [volume_as_percentage]: its guard evaluates
    [number.Number], and the module binds no name [number]. *)
Definition set_volume_as_percentage (value : pyval) : M unit :=
  _ ← global_attr "number" "Number";
  mret tt.

Definition _get_boolean (key : string) : M bool :=
  let keyname := "_" +:+ key in
  try_except
    (value ← getattr keyname;
     z ← int_ value;
     mret (negb (z =? 0)))
    (fun e => match e with
              | ValueError | AttributeError => mret false
              | _ => raise e
              end).

(** [value is True] holds for the boolean [True] only. *)
Definition is_True (value : pyval) : bool :=
  match value with
  | PyBool true => true
  | _ => false
  end.

Definition _set_boolean (key : string) (value : pyval) : M unit :=
  if is_True value then command (Text (key +:+ "1"))
  else command (Text (key +:+ "0")).

Definition power : M bool := _get_boolean "Z1POW".
Definition set_power (value : pyval) : M unit :=
  _set_boolean "Z1POW" value ;;
  _set_boolean "Z1POW" value.

Definition txstatus : M bool := _get_boolean "ECH".
Definition set_txstatus (value : pyval) : M unit := _set_boolean "ECH" value.

Definition standby_control : M bool := _get_boolean "SIP".
Definition set_standby_control (value : pyval) : M unit :=
  _set_boolean "SIP" value.

Definition arc : M bool := _get_boolean "Z1ARC".
Definition set_arc (value : pyval) : M unit := _set_boolean "Z1ARC" value.

Definition mute : M bool := _get_boolean "Z1MUT".
Definition set_mute (value : pyval) : M unit := _set_boolean "Z1MUT" value.

(** The keys of the boolean properties. *)
Definition boolean_keys : list string :=
  ["Z1POW"; "ECH"; "SIP"; "Z1ARC"; "Z1MUT"].

(** [x or default] on strings: the empty string is falsy. *)
Definition or_default (x default : string) : string :=
  if String.eqb x "" then default else x.

(** The getter of [model]: [self._IDM or "Unknown Model"]. *)
Definition model : M string :=
  idm ← getattr "_IDM";
  mret (or_default idm "Unknown Model").

(** A bounded integer setter: [isinstance(number, int)], a range check, then
    one command made of the key and [text], the rendering of [number]. *)
Definition set_bounded (key : string) (lo hi : Z) (text : string)
    (number : pyval) : M unit :=
  match as_int number with
  | Some z => if (lo <=? z) && (z <=? hi)
              then command (Text (key +:+ text))
              else mret tt
  | None => mret tt
  end.

Definition set_panel_brightness (number : pyval) : M unit :=
  set_bounded "FPB" 0 3 (py_str number) number.

Definition set_audio_listening_mode (number : pyval) : M unit :=
  set_bounded "Z1ALM" 0 16 (zfill 2 (py_str number)) number.

Definition set_dolby_dynamic_range (number : pyval) : M unit :=
  set_bounded "Z1DYN" 0 2 (py_str number) number.

Definition set_input_number (number : pyval) : M unit :=
  set_bounded "Z1INP" 1 99 (py_str number) number.

(** ** Runs of the instance *)

(** What the event loop does with a callback it was handed:
    [poweron_refresh] is this instance's method; the observers are external
    and run outside the instance. *)
Definition run_callback (cb : callback) : M unit :=
  match cb with
  | cb_poweron_refresh => poweron_refresh
  | cb_update _ => mret tt
  | cb_connection_lost => mret tt
  end.

Definition callback_of (req : scheduled) : callback :=
  match req with
  | Soon cb => cb
  | Later _ cb => cb
  end.

(** The event loop takes the [i]-th pending request off its queue and runs
    its callback. *)
Definition fire (i : nat) : M unit := fun s =>
  match _loop s with
  | None => (Ok tt, s)
  | Some queue =>
      match queue !! i with
      | None => (Ok tt, s)
      | Some req =>
          run_callback (callback_of req) (with_loop (Some (delete i queue)) s)
      end
  end.

(** The calls the outside world can make on an instance. The iteration
    order of [ATTR_CORE] is left free: any list may stand for it. *)
Inductive call :=
| ConnectionMade (t : Transport) (order : list string)
| DataReceived (data : string)
| ConnectionLost
| Fire (i : nat)
| ParseMessage (data : string)
| AssembleBuffer
| Command (cmd : payload)
| Query (item : string)
| SetValue (cmd : string) (value : pyval)
| RefreshCore (order : list string)
| RefreshAll
| PoweronRefresh
| PopulateInputs (total : Z)
| SetAttenuation (value : pyval)
| SetVolume (value : pyval)
| SetVolumeAsPercentage (value : pyval)
| SetPower (value : pyval)
| SetTxstatus (value : pyval)
| SetStandbyControl (value : pyval)
| SetArc (value : pyval)
| SetMute (value : pyval)
| SetPanelBrightness (number : pyval)
| SetAudioListeningMode (number : pyval)
| SetDolbyDynamicRange (number : pyval)
| SetInputNumber (number : pyval).

Definition run (c : call) : M unit :=
  match c with
  | ConnectionMade t order => connection_made t order
  | DataReceived data => data_received data
  | ConnectionLost => connection_lost
  | Fire i => fire i
  | ParseMessage data => _parse_message data ;; mret tt
  | AssembleBuffer => _assemble_buffer
  | Command cmd => command cmd
  | Query item => query item
  | SetValue cmd value => set_value cmd value
  | RefreshCore order => refresh_core order
  | RefreshAll => refresh_all
  | PoweronRefresh => poweron_refresh
  | PopulateInputs total => _populate_inputs total
  | SetAttenuation value => set_attenuation value
  | SetVolume value => set_volume value
  | SetVolumeAsPercentage value => set_volume_as_percentage value
  | SetPower value => set_power value
  | SetTxstatus value => set_txstatus value
  | SetStandbyControl value => set_standby_control value
  | SetArc value => set_arc value
  | SetMute value => set_mute value
  | SetPanelBrightness number => set_panel_brightness number
  | SetAudioListeningMode number => set_audio_listening_mode number
  | SetDolbyDynamicRange number => set_dolby_dynamic_range number
  | SetInputNumber number => set_input_number number
  end.

(** The instance after a sequence of calls; a call that raises leaves the
    instance as it was when the exception left the method. *)
Definition run_all (calls : list call) (s : AVR) : AVR :=
  foldl (fun s c => exec (run c) s) s calls.

(** The states an instance can be in: a constructed one, after any calls. *)
Inductive reachable : AVR -> Prop :=
| reachable_init update_callback loop connection_lost_callback :
    reachable (__init__ update_callback loop connection_lost_callback)
| reachable_call s c :
    reachable s -> reachable (exec (run c) s).

(** ** Observations used in the statements *)

(** Everything handed to [transport.write] so far (nothing without a
    transport). *)
Definition wire (s : AVR) : list payload :=
  match transport s with
  | Some t => written t
  | None => []
  end.

(** What the transport sends of a write. The transports of asyncio take
    bytes-like data only: [transport.write] raises [TypeError] for a [str]
    before anything is sent, and [command] swallows the exception. *)
Definition sent_octets (p : payload) : option string :=
  match p with
  | Bytes octets => Some octets
  | Text _ => None
  end.

(** The octets emitted on the wire so far: the writes the transport took. *)
Definition emitted (s : AVR) : list string := omap sent_octets (wire s).

(** The messages one pass of [_assemble_buffer] hands to [_parse_message]:
    the non-empty pieces of the buffer cut at line feeds. *)
Definition framed_messages (buf : string) : list string :=
  filter (fun message => message ≠ "") (PyStr.split LF buf).

(** The attribute names [__init__] creates. *)
Definition schema_attrs : gset string :=
  list_to_set ((fun key => "_" +:+ key) <$> LOOKUP_keys).


(** What holds of an instance at all times: its [setattr]-made attributes
    are exactly those of the schema, the refresh flag is [False], and the
    input directory is empty. *)
Definition Inv (s : AVR) : Prop :=
  dom (attrs s) = schema_attrs /\
  _poweron_refresh_successful s = false /\
  _input_names s = ∅ /\ _input_numbers s = ∅.

(** A method keeps a property of the instance, whether it returns or
    raises. *)
Definition preserves {A} (P : AVR -> Prop) (m : M A) : Prop :=
  forall s, P s -> P (exec m s).

(** ** The read-only side of the facade *)

(** A read-only text property: [self.<attr> or default]. *)
Definition text_property (attr default : string) : M string :=
  value ← getattr attr;
  mret (or_default value default).

Definition swversion : M string := text_property "_IDS" "Unknown Version".
Definition region : M string := text_property "_IDR" "Unknown Region".
Definition build_date : M string := text_property "_IDB" "Unknown Build Date".
Definition hwversion : M string := text_property "_IDH" "Unknown Version".
Definition macaddress : M string := text_property "_IDN" "00:00:00:00:00:00".
Definition audio_input_name : M string := text_property "_Z1AIN" "Unknown".
Definition audio_input_ratename : M string := text_property "_Z1AIR" "Unknown".

(** The read-only text properties, [model] included. *)
Definition text_properties : list (M string) :=
  [model; swversion; region; build_date; hwversion; macaddress;
   audio_input_name; audio_input_ratename].

(** [hasattr(self, name)] for the attributes [setattr] creates. *)
Definition hasattr (name : string) : M bool :=
  gets (fun s => bool_decide (is_Some (attrs s !! name))).

(** [_get_integer(key)]: [value] is bound only when the attribute exists;
    otherwise [int(value)] raises [UnboundLocalError], a subclass of
    [NameError] for which [NameError] stands here, and which the
    [except ValueError] does not catch. [None] is the bare [return]. *)
Definition _get_integer (key : string) : M (option Z) :=
  let keyname := "_" +:+ key in
  has ← hasattr keyname;
  value ← (if (has : bool) then v ← getattr keyname; mret (Some v)
           else mret None);
  try_except
    (match value with
     | Some v => z ← int_ v; mret (Some z)
     | None => raise NameError
     end)
    (fun e => match e with
              | ValueError => mret None
              | _ => raise e
              end).

Definition dolby_dialog_normalization : M (option Z) := _get_integer "Z1DIA".
Definition horizontal_resolution : M (option Z) := _get_integer "Z1IRH".
Definition vertical_resolution : M (option Z) := _get_integer "Z1IRV".
Definition audio_input_bitrate : M (option Z) := _get_integer "Z1BRT".
Definition audio_input_samplerate : M (option Z) := _get_integer "Z1SRT".
Definition input_number : M (option Z) := _get_integer "Z1INP".

(** The raw numeric properties. *)
Definition integer_properties : list (M (option Z)) :=
  [dolby_dialog_normalization; horizontal_resolution; vertical_resolution;
   audio_input_bitrate; audio_input_samplerate; input_number].

(** [d[k]] guarded by [k in d], for a dictionary kept as an association
    list with distinct keys. *)
Definition dict_get {V} (d : list (string * V)) (k : string) : option V :=
  snd <$> List.find (fun entry => String.eqb (fst entry) k) d.

(** [_get_multiprop(key, mode)]: the raw value, or for any other mode the
    label [LOOKUP[key][rawvalue]] when both lookups succeed; [None] when the
    attribute does not exist. *)
Definition _get_multiprop (key mode : string) : M (option string) :=
  let keyname := "_" +:+ key in
  has ← hasattr keyname;
  if (has : bool) then
    rawvalue ← getattr keyname;
    let value :=
      match dict_get LOOKUP key with
      | Some entry =>
          match dict_get entry rawvalue with
          | Some label => label
          | None => rawvalue
          end
      | None => rawvalue
      end in
    if String.eqb mode "raw" then mret (Some rawvalue) else mret (Some value)
  else mret None.

Definition panel_brightness := _get_multiprop "FPB" "raw".
Definition panel_brightness_text := _get_multiprop "FPB" "text".
Definition audio_listening_mode := _get_multiprop "Z1ALM" "raw".
Definition audio_listening_mode_text := _get_multiprop "Z1ALM" "text".
Definition dolby_dynamic_range := _get_multiprop "Z1DYN" "raw".
Definition dolby_dynamic_range_text := _get_multiprop "Z1DYN" "text".
Definition video_input_resolution := _get_multiprop "Z1VIR" "raw".
Definition video_input_resolution_text := _get_multiprop "Z1VIR" "text".
Definition audio_input_channels := _get_multiprop "Z1AIC" "raw".
Definition audio_input_channels_text := _get_multiprop "Z1AIC" "text".
Definition audio_input_format := _get_multiprop "Z1AIF" "raw".
Definition audio_input_format_text := _get_multiprop "Z1AIF" "text".

(** The raw-or-text properties. *)
Definition multi_properties : list (M (option string)) :=
  [panel_brightness; panel_brightness_text;
   audio_listening_mode; audio_listening_mode_text;
   dolby_dynamic_range; dolby_dynamic_range_text;
   video_input_resolution; video_input_resolution_text;
   audio_input_channels; audio_input_channels_text;
   audio_input_format; audio_input_format_text].

(** [input_list]: the keys of [_input_numbers]. *)
Definition input_list : M (list string) :=
  gets (fun s => fst <$> map_to_list (_input_numbers s)).

(** The getter of [input_name]:
    [self._input_names.get(self.input_number, "Unknown")]. *)
Definition input_name : M string :=
  number ← input_number;
  gets (fun s => match number with
                 | Some n => default "Unknown" (_input_names s !! n)
                 | None => "Unknown"
                 end).

(** The setter of [input_name]: the number found for the name, [0] when
    there is none, is assigned to [input_number] when positive. *)
Definition set_input_name (value : pyval) : M unit :=
  number ← gets (fun s => match value with
                          | PyStr name => default 0 (_input_numbers s !! name)
                          | _ => 0
                          end);
  if 0 <? number then set_input_number (PyInt number) else mret tt.

(** ** More observations *)

(** The instance with [ws] added to what its transport has written, if it
    has a transport. *)
Definition append_written (ws : list payload) (s : AVR) : AVR :=
  match transport s with
  | Some t =>
      with_transport (Some (mkTransport (written t ++ ws) (reading_paused t))) s
  | None => s
  end.

(** The calls that do nothing but send. *)
Definition sends_only (c : call) : bool :=
  match c with
  | Command _ | Query _ | SetValue _ _ | RefreshCore _ | RefreshAll
  | PopulateInputs _ | SetAttenuation _ | SetVolume _ | SetPower _
  | SetTxstatus _ | SetStandbyControl _ | SetArc _ | SetMute _
  | SetPanelBrightness _ | SetAudioListeningMode _ | SetDolbyDynamicRange _
  | SetInputNumber _ => true
  | _ => false
  end.

(** A value a setter with the integer range [lo..hi] turns down: not an
    integer, or one outside the range. *)
Definition rejected (lo hi : Z) (value : pyval) : Prop :=
  match as_int value with
  | Some z => z < lo \/ hi < z
  | None => True
  end.

(** The setters that check a range, with the range each accepts. *)
Definition ranged_setters : list ((pyval -> M unit) * Z * Z) :=
  [(set_panel_brightness, 0, 3); (set_audio_listening_mode, 0, 16);
   (set_dolby_dynamic_range, 0, 2); (set_input_number, 1, 99);
   (set_volume, 0, 99); (set_attenuation, -99, 0)].

(** The instance with the transport's reading flag set, if it has a
    transport. *)
Definition with_paused (paused : bool) (s : AVR) : AVR :=
  match transport s with
  | Some t => with_transport (Some (mkTransport (written t) paused)) s
  | None => s
  end.

(** The requests to run [poweron_refresh] pending on the loop. *)
Definition pending_refreshes (s : AVR) : nat :=
  match _loop s with
  | Some queue =>
      length (filter (fun req => callback_of req = cb_poweron_refresh) queue)
  | None => 0
  end.

(** An instance that can take data: built by the code, with an event loop
    and a transport. *)
Definition ready (s : AVR) : Prop :=
  Inv s /\ is_Some (_loop s) /\ is_Some (transport s).

(** The loop of [s'] holds the requests of the loop of [s], in order,
    followed by new ones. *)
Definition loop_extends (s s' : AVR) : Prop :=
  exists extra, _loop s' = (fun queue => queue ++ extra) <$> _loop s.

(** The boolean setters that write once, with their keys. *)
Definition boolean_setters : list ((pyval -> M unit) * string) :=
  [(set_txstatus, "ECH"); (set_standby_control, "SIP"); (set_arc, "Z1ARC");
   (set_mute, "Z1MUT")].

(** * Properties *)

(** Splits the conjunctions of the goal, and nothing else. *)
Ltac split_all :=
  intros;
  repeat match goal with
         | |- _ /\ _ => split
         end.

(** ** The string primitives on examples *)

Example split_lines :
  PyStr.split LF ("a" +:+ NL +:+ "b" +:+ NL) = ["a"; "b"; ""].
Proof. reflexivity. Qed.

Example split_empty : PyStr.split "."%char "" = [""].
Proof. reflexivity. Qed.

Example splitn_volume :
  PyStr.splitn "."%char 2 "ssp.vol.[-20.5]" = ["ssp"; "vol"; "[-20.5]"].
Proof. reflexivity. Qed.

Example strip_brackets : PyStr.strip "[]" "[[-20]" = "-20".
Proof. reflexivity. Qed.

Example int_of_str_examples :
  PyStr.int_of_str "-20" = Some (-20) /\ PyStr.int_of_str " 1_0 " = Some 10
  /\ PyStr.int_of_str "" = None /\ PyStr.int_of_str "mute1" = None
  /\ PyStr.int_of_str "007" = Some 7 /\ PyStr.int_of_str "1__0" = None.
Proof. split_all; reflexivity. Qed.

(** [int] skips tab to carriage return and the space, not the separators
    28 to 31. *)
Example int_of_str_blanks :
  PyStr.int_of_str (String (ascii_of_nat 9) "12" +:+ String (ascii_of_nat 13) "")
    = Some 12
  /\ PyStr.int_of_str ("12" +:+ String (ascii_of_nat 28) "") = None
  /\ PyStr.int_of_str ("12" +:+ String (ascii_of_nat 31) "") = None.
Proof. split_all; reflexivity. Qed.

(** A literal of 4300 digits is read, one of 4301 digits is refused. *)
Example int_of_str_digit_limit :
  let ones n := string_of_list_ascii (repeat "1"%char n) in
  PyStr.int_of_str (ones 4300%nat) <> None
  /\ PyStr.int_of_str (ones 4301%nat) = None
  /\ PyStr.int_of_str ("-" +:+ ones 4301%nat) = None.
Proof. split_all; vm_compute; congruence. Qed.

(** Well-formed and ill-formed UTF-8: a two-, three- and four-octet
    character; a stray octet, an overlong form, a surrogate, a character cut
    short and a code point above U+10FFFF. *)
Example utf8_valid_examples :
  let octets l := string_of_list_ascii (map ascii_of_nat l) in
  PyStr.utf8_valid "ssp.vol.[-20]" = true
  /\ PyStr.utf8_valid (octets [195; 169]%nat) = true
  /\ PyStr.utf8_valid (octets [226; 130; 172]%nat) = true
  /\ PyStr.utf8_valid (octets [240; 159; 152; 128]%nat) = true
  /\ PyStr.utf8_valid (octets [255]%nat) = false
  /\ PyStr.utf8_valid (octets [192; 128]%nat) = false
  /\ PyStr.utf8_valid (octets [237; 160; 128]%nat) = false
  /\ PyStr.utf8_valid (octets [226; 130]%nat) = false
  /\ PyStr.utf8_valid (octets [244; 144; 128; 128]%nat) = false.
Proof. split_all; vm_compute; reflexivity. Qed.

Example zfill_examples :
  zfill 2 "5" = "05" /\ zfill 2 "16" = "16" /\ zfill 3 "-5" = "-05".
Proof. split_all; reflexivity. Qed.

(** ** Laws of the monad *)

Lemma exec_ret {A} (a : A) s : exec (mret a) s = s.
Proof. reflexivity. Qed.

Lemma exec_bind {A B} (m : M A) (f : A -> M B) s :
  exec (m ≫= f) s =
  match result m s with
  | Ok a => exec (f a) (exec m s)
  | Raise _ => exec m s
  end.
Proof.
  unfold exec, result, mbind, M_bind.
  destruct (m s) as [[a | e] s']; reflexivity.
Qed.

Lemma result_bind {A B} (m : M A) (f : A -> M B) s :
  result (m ≫= f) s =
  match result m s with
  | Ok a => result (f a) (exec m s)
  | Raise e => Raise e
  end.
Proof.
  unfold exec, result, mbind, M_bind.
  destruct (m s) as [[a | e] s']; reflexivity.
Qed.

(** ** Preservation of a property by every call

    A property of the instance that survives changes of the loop, the
    buffer, the transport, a reset of the refresh flag, and a [setattr] on a
    schema key's attribute, survives every call. *)

Section Preservation.

Variable P : AVR -> Prop.
Hypothesis P_loop : forall l s, P s -> P (with_loop l s).
Hypothesis P_buffer : forall b s, P s -> P (with_buffer b s).
Hypothesis P_transport : forall t s, P s -> P (with_transport t s).
Hypothesis P_flag : forall s, P s -> P (with_flag false s).
Hypothesis P_setattr : forall key value s,
  key ∈ LOOKUP_keys -> P s ->
  P (with_attrs (<["_" +:+ key := value]> (attrs s)) s).

Lemma preserves_ret {A} (a : A) : preserves P (mret a).
Proof. intros s Hs. exact Hs. Qed.

Lemma preserves_raise {A} e : preserves P (@raise A e).
Proof. intros s Hs. exact Hs. Qed.

Lemma preserves_gets {A} (f : AVR -> A) : preserves P (gets f).
Proof. intros s Hs. exact Hs. Qed.

Lemma preserves_decode data : preserves P (decode data).
Proof.
  intros s Hs. unfold decode. destruct (PyStr.utf8_valid data); exact Hs.
Qed.

Lemma preserves_bind {A B} (m : M A) (f : A -> M B) :
  preserves P m -> (forall a, preserves P (f a)) -> preserves P (m ≫= f).
Proof.
  intros Hm Hf s Hs. rewrite exec_bind.
  destruct (result m s); [apply Hf |]; apply Hm, Hs.
Qed.

Lemma preserves_try {A} (body : M A) handler :
  preserves P body -> (forall e, preserves P (handler e)) ->
  preserves P (try_except body handler).
Proof.
  intros Hb Hh s Hs. specialize (Hb s Hs).
  unfold exec, try_except in *.
  destruct (body s) as [[a | e] s']; simpl in *; [exact Hb |].
  apply Hh, Hb.
Qed.

Lemma preserves_for_each {A} (xs : list A) body :
  (forall x, preserves P (body x)) -> preserves P (for_each xs body).
Proof.
  intros Hbody. induction xs as [| x xs IH]; simpl.
  - apply preserves_ret.
  - apply preserves_bind; [apply Hbody | intros _; exact IH].
Qed.

Lemma preserves_getattr name : preserves P (getattr name).
Proof.
  intros s Hs. unfold exec, getattr. destruct (attrs s !! name); exact Hs.
Qed.

Lemma preserves_global_attr name attr : preserves P (global_attr name attr).
Proof.
  unfold global_attr. case_bool_decide; apply preserves_raise.
Qed.

Lemma preserves_int_ value : preserves P (int_ value).
Proof.
  unfold int_. destruct (PyStr.int_of_str value);
    [apply preserves_ret | apply preserves_raise].
Qed.

Lemma preserves_loop_call req : preserves P (loop_call req).
Proof.
  intros s Hs. unfold exec, loop_call.
  destruct (_loop s); simpl; [apply P_loop |]; exact Hs.
Qed.

Lemma preserves_transport_write data : preserves P (transport_write data).
Proof.
  intros s Hs. unfold exec, transport_write.
  destruct (transport s); simpl; [apply P_transport |]; exact Hs.
Qed.

Lemma preserves_transport_set_paused paused :
  preserves P (transport_set_paused paused).
Proof.
  intros s Hs. unfold exec, transport_set_paused.
  destruct (transport s); simpl; [apply P_transport |]; exact Hs.
Qed.

Lemma preserves_command cmd : preserves P (command cmd).
Proof.
  apply preserves_try; [apply preserves_transport_write |].
  intros _. apply preserves_ret.
Qed.

Lemma preserves_query item : preserves P (query item).
Proof. apply preserves_command. Qed.

Lemma preserves_set_value cmd value : preserves P (set_value cmd value).
Proof. apply preserves_command. Qed.

Lemma preserves_refresh_all : preserves P refresh_all.
Proof. apply preserves_for_each, preserves_query. Qed.

Lemma preserves_poweron_refresh : preserves P poweron_refresh.
Proof.
  apply preserves_bind; [apply preserves_gets |].
  intros [|]; [apply preserves_ret |].
  apply preserves_bind; [apply preserves_refresh_all |].
  intros _. apply preserves_loop_call.
Qed.

Lemma matched_key_in_LOOKUP data key :
  matched_key data = Some key -> key ∈ LOOKUP_keys.
Proof.
  intros H. apply find_some in H. apply list_elem_of_In, H.
Qed.

Lemma preserves_parse_message data : preserves P (_parse_message data).
Proof.
  unfold _parse_message.
  apply preserves_bind.
  - destruct (PyStr.startswith data "ssp.zones"); [apply preserves_ret |].
    destruct (matched_key data) as [key |] eqn:Hkey; [| apply preserves_ret].
    apply preserves_bind; [apply preserves_getattr |]. intros oldvalue.
    apply preserves_bind.
    { intros s Hs. apply P_setattr; [| exact Hs].
      eapply matched_key_in_LOOKUP, Hkey. }
    intros _. apply preserves_bind; [| intros _; apply preserves_ret].
    destruct (_ && _); [| apply preserves_ret].
    apply preserves_bind; [intros s Hs; apply P_flag, Hs |].
    intros _. apply preserves_loop_call.
  - intros flags. apply preserves_bind; [| intros _; apply preserves_ret].
    destruct (snd flags); [| apply preserves_ret].
    apply preserves_bind; [apply preserves_gets |].
    intros [|]; [apply preserves_loop_call | apply preserves_ret].
Qed.

Lemma preserves_assemble_buffer : preserves P _assemble_buffer.
Proof.
  unfold _assemble_buffer.
  apply preserves_bind; [apply preserves_transport_set_paused |]. intros _.
  apply preserves_bind; [apply preserves_gets |]. intros buf.
  apply preserves_bind.
  { apply preserves_for_each. intros message.
    destruct (String.eqb message ""); [apply preserves_ret |].
    apply preserves_bind; [apply preserves_parse_message |].
    intros _. apply preserves_ret. }
  intros _. apply preserves_bind; [intros s Hs; apply P_buffer, Hs |].
  intros _. apply preserves_transport_set_paused.
Qed.

Lemma preserves_set_boolean key value : preserves P (_set_boolean key value).
Proof. unfold _set_boolean. destruct (is_True value); apply preserves_command. Qed.

Lemma preserves_set_bounded key lo hi text number :
  preserves P (set_bounded key lo hi text number).
Proof.
  unfold set_bounded. destruct (as_int number); [| apply preserves_ret].
  destruct (_ && _); [apply preserves_command | apply preserves_ret].
Qed.

Lemma preserves_run c : preserves P (run c).
Proof.
  destruct c; simpl.
  - apply preserves_bind; [intros s Hs; apply P_transport, Hs |]. intros _.
    apply preserves_bind; [apply preserves_command |]. intros _.
    apply preserves_for_each, preserves_query.
  - apply preserves_bind; [apply preserves_decode |]. intros text.
    apply preserves_bind; [intros s Hs; apply P_buffer, Hs |]. intros _.
    apply preserves_assemble_buffer.
  - apply preserves_bind; [intros s Hs; apply P_transport, Hs |]. intros _.
    apply preserves_bind; [apply preserves_gets |].
    intros [|]; [apply preserves_loop_call | apply preserves_ret].
  - intros s Hs. unfold exec, fire.
    destruct (_loop s) as [queue |]; [| exact Hs].
    destruct (queue !! i) as [req |]; [| exact Hs].
    destruct (callback_of req); simpl;
      [apply preserves_poweron_refresh | |]; apply P_loop, Hs.
  - apply preserves_bind; [apply preserves_parse_message |].
    intros _. apply preserves_ret.
  - apply preserves_assemble_buffer.
  - apply preserves_command.
  - apply preserves_query.
  - apply preserves_set_value.
  - apply preserves_for_each, preserves_query.
  - apply preserves_refresh_all.
  - apply preserves_poweron_refresh.
  - apply preserves_for_each. intros x. apply preserves_query.
  - unfold set_attenuation. destruct (as_int value); [| apply preserves_ret].
    destruct (_ && _); [apply preserves_set_value | apply preserves_ret].
  - unfold set_volume. destruct (as_int value); [| apply preserves_ret].
    destruct (_ && _); [apply preserves_set_value | apply preserves_ret].
  - apply preserves_bind; [apply preserves_global_attr |].
    intros _. apply preserves_ret.
  - apply preserves_bind; [apply preserves_set_boolean |].
    intros _. apply preserves_set_boolean.
  - apply preserves_set_boolean.
  - apply preserves_set_boolean.
  - apply preserves_set_boolean.
  - apply preserves_set_boolean.
  - apply preserves_set_bounded.
  - apply preserves_set_bounded.
  - apply preserves_set_bounded.
  - apply preserves_set_bounded.
Qed.

Lemma preserves_run_all calls s : P s -> P (run_all calls s).
Proof.
  revert s. induction calls as [| c calls IH]; intros s Hs; simpl.
  - exact Hs.
  - apply IH, preserves_run, Hs.
Qed.

End Preservation.

(** ** What every reachable instance satisfies *)

Lemma schema_attr_of_key key :
  key ∈ LOOKUP_keys -> "_" +:+ key ∈ schema_attrs.
Proof.
  intros H. unfold schema_attrs. apply elem_of_list_to_set.
  apply list_elem_of_fmap. exists key. split; [reflexivity | exact H].
Qed.

(** The loop of [__init__]: it creates one attribute per key, holding the
    empty string, and touches nothing else. *)
Lemma init_loop_spec keys s :
  let s' := exec (for_each keys (fun key => setattr ("_" +:+ key) "")) s in
  (forall name,
     attrs s' !! name =
     if decide (name ∈ (fun key => "_" +:+ key) <$> keys) then Some ""
     else attrs s !! name) /\
  _loop s' = _loop s /\ transport s' = transport s /\
  _poweron_refresh_successful s' = _poweron_refresh_successful s /\
  _input_names s' = _input_names s /\ _input_numbers s' = _input_numbers s.
Proof.
  revert s. induction keys as [| key keys IH]; intros s.
  - cbn. split_all; try reflexivity.
    all: intros name; case_decide as H; [| reflexivity].
    all: apply elem_of_nil in H; destruct H.
  - cbn [for_each]. rewrite exec_bind. cbn [result setattr modify fst].
    destruct (IH (exec (setattr ("_" +:+ key) "") s))
      as (Hlook & Hloop & Htr & Hflag & Hnames & Hnums).
    cbv zeta. rewrite Hloop, Htr, Hflag, Hnames, Hnums.
    split_all; try reflexivity.
    intros name. rewrite Hlook. cbn [exec setattr modify snd attrs with_attrs].
    rewrite fmap_cons.
    destruct (decide (name ∈ (fun key => "_" +:+ key) <$> keys)) as [Hin | Hout].
    + rewrite decide_True; [reflexivity |]. apply elem_of_cons. right. exact Hin.
    + destruct (decide (name = "_" +:+ key)) as [-> | Hne].
      * rewrite lookup_insert_eq.
        rewrite decide_True; [reflexivity |]. apply elem_of_cons. left. reflexivity.
      * rewrite lookup_insert_ne by (intros E; apply Hne; symmetry; exact E).
        rewrite decide_False; [reflexivity |].
        intros [E | E]%elem_of_cons; [exact (Hne E) | exact (Hout E)].
Qed.

Lemma init_lookup u l c name :
  attrs (__init__ u l c) !! name =
  if decide (name ∈ (fun key => "_" +:+ key) <$> LOOKUP_keys) then Some ""
  else None.
Proof.
  unfold __init__.
  destruct (init_loop_spec LOOKUP_keys
    (mkAVR (if l then Some [] else None) c u "" ∅ ∅ false None ∅))
    as (Hlook & _).
  rewrite Hlook. case_decide; [reflexivity | apply lookup_empty].
Qed.

Lemma init_fields u l c :
  _poweron_refresh_successful (__init__ u l c) = false /\
  _input_names (__init__ u l c) = ∅ /\ _input_numbers (__init__ u l c) = ∅.
Proof.
  unfold __init__.
  destruct (init_loop_spec LOOKUP_keys
    (mkAVR (if l then Some [] else None) c u "" ∅ ∅ false None ∅))
    as (_ & _ & _ & Hflag & Hnames & Hnums).
  split_all; [exact Hflag | exact Hnames | exact Hnums].
Qed.

Lemma init_Inv u l c : Inv (__init__ u l c).
Proof.
  split; [| apply init_fields].
  apply set_eq. intros name.
  rewrite elem_of_dom, init_lookup.
  unfold schema_attrs. rewrite elem_of_list_to_set.
  case_decide as H; split; intros H'; try exact H.
  - eexists. reflexivity.
  - destruct H' as [x Hx]. discriminate.
  - contradiction.
Qed.

Lemma init_entries u l c key :
  key ∈ LOOKUP_keys -> attrs (__init__ u l c) !! ("_" +:+ key) = Some "".
Proof.
  intros H. rewrite init_lookup. rewrite decide_True; [reflexivity |].
  apply list_elem_of_fmap. exists key. split; [reflexivity | exact H].
Qed.

Lemma Inv_setattr key value s :
  key ∈ LOOKUP_keys -> Inv s ->
  Inv (with_attrs (<["_" +:+ key := value]> (attrs s)) s).
Proof.
  intros Hkey (Hdom & Hrest). split; [| exact Hrest].
  cbn [attrs with_attrs].
  rewrite dom_insert_L, Hdom.
  apply subseteq_union_1_L, singleton_subseteq_l, schema_attr_of_key, Hkey.
Qed.

Lemma Inv_with_loop l s : Inv s -> Inv (with_loop l s).
Proof. intros H. exact H. Qed.

Lemma Inv_with_buffer b s : Inv s -> Inv (with_buffer b s).
Proof. intros H. exact H. Qed.

Lemma Inv_with_transport t s : Inv s -> Inv (with_transport t s).
Proof. intros H. exact H. Qed.

Lemma Inv_with_flag s : Inv s -> Inv (with_flag false s).
Proof.
  intros (Hdom & _ & Hrest).
  split; [exact Hdom |]. split; [reflexivity | exact Hrest].
Qed.

Lemma run_Inv c : preserves Inv (run c).
Proof.
  apply preserves_run.
  - apply Inv_with_loop.
  - apply Inv_with_buffer.
  - apply Inv_with_transport.
  - apply Inv_with_flag.
  - apply Inv_setattr.
Qed.

Lemma run_all_Inv calls u l c : Inv (run_all calls (__init__ u l c)).
Proof.
  apply (preserves_run_all Inv).
  - apply Inv_with_loop.
  - apply Inv_with_buffer.
  - apply Inv_with_transport.
  - apply Inv_with_flag.
  - apply Inv_setattr.
  - apply init_Inv.
Qed.

Lemma reachable_Inv s : reachable s -> Inv s.
Proof.
  induction 1 as [u l c | s c _ IH]; [apply init_Inv | apply run_Inv, IH].
Qed.

Lemma reachable_run_all calls s : reachable s -> reachable (run_all calls s).
Proof.
  revert s. induction calls as [| c calls IH]; intros s Hs; simpl.
  - exact Hs.
  - apply IH, reachable_call, Hs.
Qed.

(** No call removes an attribute, whatever the instance. *)
Lemma run_keeps_entries c name :
  preserves (fun s => is_Some (attrs s !! name)) (run c).
Proof.
  apply preserves_run; try (intros; assumption).
  intros key value s _ Hs. cbn [attrs with_attrs].
  apply lookup_insert_is_Some'. right. exact Hs.
Qed.

(** C9: in every reachable state, every key of the schema has its entry
    ['_'+key] among the instance's attributes. *)
Theorem schema_keys_always_present (s : AVR) (key : string) :
  reachable s -> key ∈ LOOKUP_keys -> is_Some (attrs s !! ("_" +:+ key)).
Proof.
  intros Hs Hkey. apply reachable_Inv in Hs as (Hdom & _).
  apply elem_of_dom. rewrite Hdom. apply schema_attr_of_key, Hkey.
Qed.

Lemma schema_keys_always_present_witness :
  let s := exec (run (DataReceived ("ssp.vol.[-20]" +:+ NL)))
             (exec (run (ConnectionMade (mkTransport [] false) ["Z1POW"; "IDM"]))
                (__init__ true true false)) in
  (reachable s /\ "ssp.vol" ∈ LOOKUP_keys) /\
  is_Some (attrs s !! ("_" +:+ "ssp.vol")).
Proof.
  assert (Hs : reachable
    (exec (run (DataReceived ("ssp.vol.[-20]" +:+ NL)))
       (exec (run (ConnectionMade (mkTransport [] false) ["Z1POW"; "IDM"]))
          (__init__ true true false)))).
  { apply reachable_call, reachable_call, reachable_init. }
  assert (Hkey : "ssp.vol" ∈ LOOKUP_keys).
  { apply list_elem_of_In. vm_compute. tauto. }
  split; [split; [exact Hs | exact Hkey] |].
  apply (schema_keys_always_present _ "ssp.vol" Hs Hkey).
Defined.

(** ** The command encoder *)

Lemma command_spec cmd s :
  command cmd s =
  (Ok tt,
   match transport s with
   | Some t =>
       with_transport
         (Some (mkTransport (written t ++ [cmd]) (reading_paused t))) s
   | None => s
   end).
Proof.
  unfold command, try_except, transport_write.
  destruct (transport s); reflexivity.
Qed.

Lemma wire_command cmd s :
  wire (exec (command cmd) s) =
  match transport s with
  | Some _ => wire s ++ [cmd]
  | None => []
  end.
Proof.
  unfold exec, wire. rewrite command_spec.
  destruct s as [? ? ? ? ? ? ? [[w p] |] ?]; reflexivity.
Qed.

Lemma for_each_command {A} (f : A -> payload) xs s :
  for_each xs (fun x => command (f x)) s =
  (Ok tt,
   match transport s with
   | Some t =>
       with_transport
         (Some (mkTransport (written t ++ (f <$> xs)) (reading_paused t))) s
   | None => s
   end).
Proof.
  revert s. induction xs as [| x xs IH]; intros s.
  - simpl. unfold mret, M_ret. f_equal.
    destruct s as [? ? ? ? ? ? ? [[w p] |] ?]; cbn; [| reflexivity].
    rewrite app_nil_r. reflexivity.
  - cbn [for_each]. unfold mbind, M_bind. rewrite command_spec, IH.
    destruct s as [? ? ? ? ? ? ? [[w p] |] ?]; cbn; [| reflexivity].
    rewrite <- app_assoc. reflexivity.
Qed.

Lemma refresh_all_spec s :
  refresh_all s =
  (Ok tt,
   match transport s with
   | Some t =>
       with_transport
         (Some (mkTransport (written t ++ (Text <$> LOOKUP_keys))
                            (reading_paused t))) s
   | None => s
   end).
Proof. apply (for_each_command Text). Qed.

(** ** The power-on refresh loop *)

(** With the flag set, [poweron_refresh] returns at once: nothing is
    written and nothing is scheduled. *)
Lemma poweron_refresh_stops s :
  _poweron_refresh_successful s = true -> poweron_refresh s = (Ok tt, s).
Proof.
  intros H. unfold poweron_refresh, mbind, M_bind, gets. rewrite H. reflexivity.
Qed.

(** With the flag unset, it queries every schema key and asks to be called
    again after 2. *)
Lemma poweron_refresh_retries s :
  _poweron_refresh_successful s = false ->
  wire (exec poweron_refresh s) =
    match transport s with
    | Some _ => wire s ++ (Text <$> LOOKUP_keys)
    | None => []
    end /\
  _loop (exec poweron_refresh s) =
    (fun queue => queue ++ [Later 2 cb_poweron_refresh]) <$> _loop s.
Proof.
  intros H. unfold exec, poweron_refresh, mbind, M_bind, gets. rewrite H.
  rewrite refresh_all_spec. unfold loop_call, wire.
  destruct s as [[queue |] ? ? ? ? ? ? [[w p] |] ?]; cbn; split; reflexivity.
Qed.

(** The power-on edge: ['0'] stored, ['1'] parsed. *)
Example poweron_edge_schedules :
  let s := exec (data_received ("ssp.power.[0]" +:+ NL))
             (exec (connection_made (mkTransport [] false) ["Z1POW"; "IDM"])
                (__init__ false true false)) in
  _loop s = Some [] /\
  _loop (exec (data_received ("ssp.power.[1]" +:+ NL)) s)
    = Some [Later 1 cb_poweron_refresh].
Proof. split; vm_compute; reflexivity. Qed.

(** C1: whatever calls an instance has received, its flag
    [_poweron_refresh_successful] is [False] and its input directory is
    empty, so a run of [poweron_refresh] always queries every schema key and
    schedules itself again: the loop started by a power-on edge never stops. *)
Theorem poweron_refresh_never_successful
    (calls : list call) (u l c : bool) :
  let s := run_all calls (__init__ u l c) in
  _poweron_refresh_successful s = false /\
  _input_names s = ∅ /\
  wire (exec poweron_refresh s) =
    match transport s with
    | Some _ => wire s ++ (Text <$> LOOKUP_keys)
    | None => []
    end /\
  _loop (exec poweron_refresh s) =
    (fun queue => queue ++ [Later 2 cb_poweron_refresh]) <$> _loop s.
Proof.
  intros s. destruct (run_all_Inv calls u l c) as (_ & Hflag & Hnames & _).
  fold s in Hflag, Hnames.
  split; [exact Hflag |]. split; [exact Hnames |].
  apply poweron_refresh_retries, Hflag.
Qed.

(** Input data arriving between two runs of the loop changes nothing: after
    a power-on edge, a reply to the input list query, and three runs of the
    callback, the next run is still pending. *)
Example poweron_refresh_after_input_data :
  let s := run_all
    [ConnectionMade (mkTransport [] false) ["Z1POW"; "IDM"];
     DataReceived ("ssp.power.[0]" +:+ NL +:+ "ssp.power.[1]" +:+ NL);
     Fire 0;
     DataReceived ("ssp.input.list.[HDMI 1]" +:+ NL);
     Fire 0; Fire 0]
    (__init__ false true false) in
  _loop s = Some [Later 2 cb_poweron_refresh] /\
  _poweron_refresh_successful s = false /\
  length (wire s) = (3 + 3 * length LOOKUP_keys)%nat.
Proof. split_all; vm_compute; reflexivity. Qed.

(** ** The facade on an instance as the code builds it *)

Lemma unset_attribute s name :
  Inv s -> name ∉ schema_attrs -> attrs s !! name = None.
Proof.
  intros (Hdom & _) Hname. apply not_elem_of_dom. rewrite Hdom. exact Hname.
Qed.

Lemma IDM_not_in_schema : "_IDM" ∉ schema_attrs.
Proof. apply (bool_decide_unpack _). vm_compute. reflexivity. Qed.

Lemma vol_not_in_schema : "ssp.vol" ∉ schema_attrs.
Proof. apply (bool_decide_unpack _). vm_compute. reflexivity. Qed.

Lemma boolean_keys_not_in_schema key :
  key ∈ boolean_keys -> "_" +:+ key ∉ schema_attrs.
Proof.
  intros H. apply list_elem_of_In in H. simpl in H.
  repeat (destruct H as [<- | H];
          [apply (bool_decide_unpack _); vm_compute; reflexivity |]).
  destruct H.
Qed.

(** C4: on a freshly constructed instance, reading [model] raises
    [AttributeError]: no attribute [_IDM] was ever created. *)
Theorem model_fresh_raises (u l c : bool) :
  result model (__init__ u l c) = Raise AttributeError /\
  attrs (__init__ u l c) !! "_IDM" = None.
Proof.
  assert (H : attrs (__init__ u l c) !! "_IDM" = None).
  { apply unset_attribute; [apply init_Inv | apply IDM_not_in_schema]. }
  split; [| exact H].
  unfold result, model, mbind, M_bind, getattr. rewrite H. reflexivity.
Qed.

(** The same holds after any calls. *)
Lemma model_always_raises calls u l c :
  result model (run_all calls (__init__ u l c)) = Raise AttributeError.
Proof.
  unfold result, model, mbind, M_bind, getattr.
  rewrite (unset_attribute _ "_IDM" (run_all_Inv calls u l c) IDM_not_in_schema).
  reflexivity.
Qed.

Lemma attenuation_sentinel s : attenuation s = (Ok (-100), s).
Proof. reflexivity. Qed.

Lemma volume_raises s :
  Inv s -> volume s = (Raise AttributeError, s).
Proof.
  intros H. unfold volume, getattr.
  rewrite (unset_attribute _ _ H vol_not_in_schema). reflexivity.
Qed.

Lemma get_boolean_unset s key :
  Inv s -> key ∈ boolean_keys -> _get_boolean key s = (Ok false, s).
Proof.
  intros H Hkey. unfold _get_boolean, try_except, mbind, M_bind, getattr.
  rewrite (unset_attribute _ _ H (boolean_keys_not_in_schema _ Hkey)).
  reflexivity.
Qed.

(** C3: after [volume = v] and the echo of the command it sends,
    [attenuation] reads the sentinel [-100] (its body names an unbound
    [ssp]) and [volume_as_percentage] raises [AttributeError] (it reads an
    attribute ['ssp.vol'] that is never created), whatever [v] is and
    whatever the instance went through before. *)
Theorem volume_views_after_set (v : Z) (calls : list call) (u l c : bool) :
  let s := run_all calls (__init__ u l c) in
  let s1 := exec (set_volume (PyInt v)) s in
  let s2 :=
    exec (data_received (command_to_send "ssp.vol" (PyInt (-1 * v)))) s1 in
  result attenuation s2 = Ok (-100) /\
  result volume_as_percentage s2 = Raise AttributeError.
Proof.
  intros s s1 s2. split; [reflexivity |].
  assert (H2 : Inv s2).
  { apply (run_Inv (DataReceived _)), (run_Inv (SetVolume _)), run_all_Inv. }
  unfold result, volume_as_percentage, mbind, M_bind.
  rewrite (volume_raises _ H2). reflexivity.
Qed.

(** The case [v = 20] step by step: the command goes out, its echo is
    stored as ['-20'], and the two views still do not read it. *)
Example volume_20 :
  let s := exec (connection_made (mkTransport [] false) ["Z1POW"; "IDM"])
             (__init__ true true false) in
  let s1 := exec (set_volume (PyInt 20)) s in
  let s2 := exec (data_received ("ssp.vol.[-20]" +:+ NL)) s1 in
  wire s1 = wire s ++ [Bytes ("ssp.vol.[-20]" +:+ NL)] /\
  attrs s2 !! "_ssp.vol" = Some "-20" /\
  result attenuation s2 = Ok (-100) /\
  result volume s2 = Raise AttributeError /\
  result volume_as_percentage s2 = Raise AttributeError.
Proof. split_all; vm_compute; reflexivity. Qed.

(** C5: for each boolean property key, the command written for [True] is
    the key followed by ['1'], and once that text has come back through
    [data_received] the boolean read of the key is [False]: the echo matches
    no schema key and the attribute read was never created. *)
Theorem boolean_round_trip_reads_false (calls : list call) (u l c : bool) :
  let s := run_all calls (__init__ u l c) in
  Forall (fun key =>
    let s1 := exec (_set_boolean key (PyBool true)) s in
    let s2 := exec (data_received (key +:+ "1")) s1 in
    wire s1 = match transport s with
              | Some _ => wire s ++ [Text (key +:+ "1")]
              | None => []
              end /\
    result (_get_boolean key) s2 = Ok false) boolean_keys.
Proof.
  intros s. apply Forall_forall. intros key Hkey s1 s2.
  split; [apply wire_command |].
  assert (H2 : Inv s2).
  { apply (run_Inv (DataReceived _)), (run_Inv (Command _)), run_all_Inv. }
  unfold result. rewrite (get_boolean_unset _ _ H2 Hkey). reflexivity.
Qed.

Example power_round_trip :
  let s := exec (connection_made (mkTransport [] false) ["Z1POW"; "IDM"])
             (__init__ true true false) in
  let s1 := exec (set_power (PyBool true)) s in
  let s2 := exec (data_received "Z1POW1") s1 in
  matched_key "Z1POW1" = None /\
  result (_parse_message "Z1POW1") s1 = Ok (false, false) /\
  attrs s2 !! "_Z1POW" = None /\
  result power s2 = Ok false.
Proof. split_all; vm_compute; reflexivity. Qed.

Lemma append_LF_differs (item : string) : item <> item +:+ NL.
Proof.
  induction item as [| ch item IH]; simpl; [discriminate |].
  intros H. injection H as H. exact (IH H).
Qed.

(** C6: [query] is [command] on the same text, and what reaches the
    transport is that text as it is: no line feed is added. *)
Theorem query_and_command_write_raw_text (item : string) (s : AVR) :
  query item = command (Text item) /\
  wire (exec (query item) s) =
    match transport s with
    | Some _ => wire s ++ [Text item]
    | None => []
    end /\
  Text item <> Text (item +:+ NL).
Proof.
  split; [reflexivity |]. split; [apply wire_command |].
  intros H. injection H as H. exact (append_LF_differs item H).
Qed.

(** A query next to a value set on the same transport: only the latter
    carries the terminator. *)
Example query_unterminated :
  let s := exec (connection_made (mkTransport [] false) []) (__init__ true true false) in
  wire (exec (set_value "ssp.mute" (PyStr "on")) (exec (query "ssp.vol") s)) =
  [Text "ECH1"; Text "ssp.vol"; Bytes ("ssp.mute.on" +:+ NL)].
Proof. vm_compute. reflexivity. Qed.




Example set_value_examples :
  command_to_send "ssp.mute" (PyStr "toggle") = "ssp.mute.toggle" +:+ NL /\
  command_to_send "ssp.mute" (PyStr "Toggle") = "ssp.mute.[Toggle]" +:+ NL /\
  command_to_send "ssp.vol" (PyInt (-20)) = "ssp.vol.[-20]" +:+ NL /\
  command_to_send "ssp.vol" (PyStr "") = "ssp.vol.[]" +:+ NL.
Proof. split_all; reflexivity. Qed.

(** One assignment to [power] hands the same command to the transport
    twice in a row. *)
Lemma set_power_writes_twice (value : pyval) (s : AVR) :
  let cmd := Text ("Z1POW" +:+ (if is_True value then "1" else "0")) in
  wire (exec (set_power value) s) =
  match transport s with
  | Some _ => wire s ++ [cmd; cmd]
  | None => []
  end.
Proof.
  unfold exec, wire, set_power, _set_boolean, mbind, M_bind.
  destruct (is_True value); rewrite !command_spec;
    destruct s as [? ? ? ? ? ? ? [[w p] |] ?]; cbn;
    rewrite <- ?app_assoc; reflexivity.
Qed.

Lemma emitted_app_text s ws :
  Forall (fun p => sent_octets p = None) ws ->
  omap sent_octets (wire s ++ ws) = emitted s.
Proof.
  intros Hws. unfold emitted. rewrite omap_app.
  assert (E : omap sent_octets ws = []).
  { induction Hws as [| p ws Hp _ IH]; [reflexivity |].
    cbn [omap list_omap]. rewrite Hp. exact IH. }
  rewrite E. apply app_nil_r.
Qed.

(** C10: one assignment to [power] calls [transport.write] twice with the
    same command, but the command is a [str] that was never encoded: the
    transport refuses both writes, [command] swallows the two exceptions
    and the setter returns normally, and nothing is emitted on the wire. *)
Theorem set_power_emits_nothing (value : pyval) (s : AVR) :
  let cmd := Text ("Z1POW" +:+ (if is_True value then "1" else "0")) in
  let s' := exec (set_power value) s in
  result (set_power value) s = Ok tt /\
  wire s' = match transport s with
            | Some _ => wire s ++ [cmd; cmd]
            | None => []
            end /\
  emitted s' = emitted s.
Proof.
  intros cmd s'. split; [| split].
  - unfold result, set_power, _set_boolean, mbind, M_bind.
    destruct (is_True value); rewrite !command_spec; reflexivity.
  - apply set_power_writes_twice.
  - unfold emitted at 1. subst s'. rewrite set_power_writes_twice.
    destruct (transport s) as [t |] eqn:Ht.
    + apply emitted_app_text. repeat constructor.
    + unfold emitted, wire. rewrite Ht. reflexivity.
Qed.

(** On a connected instance the power setter emits nothing, where
    [set_value], which encodes its command, emits it. *)
Example set_power_on_emits_nothing :
  let s := with_transport (Some (mkTransport [] false))
             (__init__ true true false) in
  wire (exec (set_power (PyBool true)) s) = [Text "Z1POW1"; Text "Z1POW1"] /\
  emitted (exec (set_power (PyBool true)) s) = [] /\
  emitted (exec (set_value "ssp.power" (PyStr "on")) s)
  = ["ssp.power.on" +:+ NL].
Proof. split_all; vm_compute; reflexivity. Qed.

Example set_power_on :
  wire (exec (set_power (PyBool true))
          (with_transport (Some (mkTransport [] false)) (__init__ true true false)))
  = [Text "Z1POW1"; Text "Z1POW1"].
Proof. vm_compute. reflexivity. Qed.

(** ** The framer *)

Lemma split_not_nil sep s : PyStr.split sep s <> [].
Proof.
  destruct s as [| ch s]; simpl; [discriminate |].
  destruct (Ascii.eqb ch sep); [discriminate |].
  destruct (PyStr.split sep s); discriminate.
Qed.

(** Cutting at a separator: [(a + sep + b).split(sep)] is [a.split(sep)]
    followed by [b.split(sep)]. *)
Lemma split_app sep a b :
  PyStr.split sep (a +:+ String sep b) = PyStr.split sep a ++ PyStr.split sep b.
Proof.
  induction a as [| ch a IH]; simpl.
  - rewrite Ascii.eqb_refl. reflexivity.
  - destruct (Ascii.eqb ch sep); rewrite IH; [reflexivity |].
    pose proof (split_not_nil sep a) as Hne.
    destruct (PyStr.split sep a); [contradiction | reflexivity].
Qed.

(** A string without separator is a single piece. *)
Lemma split_whole sep s :
  PyStr.mem sep s = false -> PyStr.split sep s = [s].
Proof.
  induction s as [| ch s IH]; simpl; [reflexivity |].
  rewrite Ascii.eqb_sym. destruct (Ascii.eqb ch sep); [discriminate |].
  intros H. rewrite (IH H). reflexivity.
Qed.

(** [_assemble_buffer] parses exactly the framed messages of the buffer. *)
Lemma for_each_skip_empty (body : string -> M unit) pieces s :
  for_each pieces
    (fun message => if String.eqb message "" then mret tt else body message) s
  = for_each (filter (fun message => message <> "") pieces) body s.
Proof.
  revert s. induction pieces as [| piece pieces IH]; intros s; [reflexivity |].
  cbn [for_each]. destruct (String.eqb_spec piece "") as [-> | Hne].
  - rewrite filter_cons_False by (intros H; apply H; reflexivity).
    unfold mbind, M_bind, mret, M_ret. apply IH.
  - rewrite filter_cons_True by exact Hne.
    cbn [for_each]. unfold mbind, M_bind.
    destruct (body piece s) as [[[] | e] s']; [apply IH | reflexivity].
Qed.

Lemma assemble_buffer_framed s :
  _assemble_buffer s =
  (transport_set_paused true ;;
   for_each (framed_messages (buffer s))
            (fun message => _parse_message message ;; mret tt) ;;
   modify (with_buffer "") ;;
   transport_set_paused false) s.
Proof.
  unfold _assemble_buffer, framed_messages, mbind, M_bind, gets.
  unfold transport_set_paused at 1 3.
  destruct (transport s) as [t |]; [| reflexivity].
  cbn [buffer with_transport].
  rewrite for_each_skip_empty. reflexivity.
Qed.

(** A chunk that ends at a line end frames like its parts. *)
Lemma framed_messages_line_end a b :
  framed_messages (a +:+ NL +:+ b) = framed_messages a ++ framed_messages b.
Proof.
  unfold framed_messages.
  change (a +:+ NL +:+ b) with (a +:+ String LF b).
  rewrite split_app. apply filter_app.
Qed.

(** A fragment without line feed is framed as a message of its own. *)
Lemma fragment_is_forwarded frag :
  frag <> "" -> PyStr.mem LF frag = false -> framed_messages frag = [frag].
Proof.
  intros Hne Hlf. unfold framed_messages. rewrite (split_whole _ _ Hlf).
  rewrite filter_cons_True by exact Hne. reflexivity.
Qed.

(** The two ways of [data_received]: octets that decode are appended to the
    buffer, which is then assembled; octets that do not decode raise before
    anything is assigned. *)
Lemma data_received_decoded d s :
  PyStr.utf8_valid d = true ->
  data_received d s = _assemble_buffer (with_buffer (buffer s +:+ d) s).
Proof.
  intros Hd. unfold data_received, decode. rewrite Hd. reflexivity.
Qed.

Lemma data_received_undecodable d s :
  PyStr.utf8_valid d = false ->
  data_received d s = (Raise UnicodeDecodeError, s).
Proof.
  intros Hd. unfold data_received, decode. rewrite Hd. reflexivity.
Qed.

(** The scanner goes through a concatenation piece by piece, so two
    well-formed chunks make a well-formed chunk. *)
Lemma utf8_scan_app st x y :
  PyStr.utf8_scan st (x +:+ y)
  = match PyStr.utf8_scan st x with
    | Some st' => PyStr.utf8_scan st' y
    | None => None
    end.
Proof.
  revert st. induction x as [| c x IH]; intros st; [reflexivity |].
  change (String c x +:+ y) with (String c (x +:+ y)).
  cbn [PyStr.utf8_scan].
  destruct (PyStr.utf8_step st c); [apply IH | reflexivity].
Qed.

Lemma append_assoc (x y z : string) : (x +:+ y) +:+ z = x +:+ y +:+ z.
Proof.
  induction x as [| c x IH]; [reflexivity |].
  change (String c ((x +:+ y) +:+ z) = String c (x +:+ y +:+ z)).
  rewrite IH. reflexivity.
Qed.

Lemma utf8_valid_app x y :
  PyStr.utf8_valid x = true -> PyStr.utf8_valid y = true ->
  PyStr.utf8_valid (x +:+ y) = true.
Proof.
  unfold PyStr.utf8_valid. rewrite utf8_scan_app.
  destruct (PyStr.utf8_scan PyStr.Lead x) as [[] |]; try discriminate.
  intros _ Hy. exact Hy.
Qed.

(** On an empty buffer, a chunk that is a fragment without line feed is
    handled as a complete message: it is parsed, and the buffer is emptied. *)
Lemma unterminated_fragment_is_parsed frag s :
  PyStr.utf8_valid frag = true ->
  buffer s = "" -> frag <> "" -> PyStr.mem LF frag = false ->
  data_received frag s =
  (transport_set_paused true ;;
   _parse_message frag ;;
   modify (with_buffer "") ;;
   transport_set_paused false) (with_buffer frag s).
Proof.
  intros Hd Hbuf Hne Hlf. rewrite (data_received_decoded _ _ Hd).
  rewrite Hbuf. change ("" +:+ frag) with frag.
  rewrite assemble_buffer_framed. cbn [buffer with_buffer].
  rewrite (fragment_is_forwarded frag Hne Hlf).
  unfold mbind, M_bind. cbn [for_each].
  destruct (transport_set_paused true (with_buffer frag s)) as [[[] | e] s1];
    [| reflexivity].
  unfold mbind, M_bind.
  destruct (_parse_message frag s1) as [[flags | e] s2]; reflexivity.
Qed.

(** C2: a message cut in two chunks. The first chunk, a fragment without
    line feed, is parsed as a message of its own and the buffer is emptied,
    so the second chunk does not complete it: fed whole, the message sets
    the volume attribute and schedules one notification; fed in two chunks,
    it does neither. *)
Theorem split_message_is_not_reassembled :
  let s := exec (connection_made (mkTransport [] false) ["Z1POW"; "IDM"])
             (__init__ true true false) in
  let whole := exec (data_received ("ssp.vol.[-20]" +:+ NL)) s in
  let first := exec (data_received "ssp.vo") s in
  let both := exec (data_received ("l.[-20]" +:+ NL)) first in
  framed_messages "ssp.vo" = ["ssp.vo"] /\
  buffer first = "" /\
  framed_messages (buffer first +:+ "l.[-20]" +:+ NL) = ["l.[-20]"] /\
  framed_messages ("ssp.vol.[-20]" +:+ NL) = ["ssp.vol.[-20]"] /\
  attrs whole !! "_ssp.vol" = Some "-20" /\
  _loop whole = Some [Soon (cb_update "ssp.vol.[-20]")] /\
  attrs both !! "_ssp.vol" = Some "" /\
  _loop both = Some [].
Proof. split_all; vm_compute; reflexivity. Qed.

(** ** The parser *)

(** A message that is not zone-scoped and matches no key changes nothing. *)
Lemma parse_message_unrecognized data s :
  PyStr.startswith data "ssp.zones" = false ->
  matched_key data = None ->
  _parse_message data s = (Ok (false, false), s).
Proof.
  intros Hzone Hkey. unfold _parse_message, mbind, M_bind.
  rewrite Hzone, Hkey. reflexivity.
Qed.

(** A zone-scoped message is recognised and changes nothing. *)
Lemma parse_message_zone data s :
  PyStr.startswith data "ssp.zones" = true ->
  _parse_message data s = (Ok (true, false), s).
Proof.
  intros Hzone. unfold _parse_message, mbind, M_bind.
  rewrite Hzone. reflexivity.
Qed.

(** C7, as stated, fails on the schema key ['ssp.zones.list']: on a new
    instance its stored value is empty, a message carrying ['1'] for it is
    zone-scoped (the parser would read the value ['list.[1'] from it), and
    parsing it reports no change, stores nothing and schedules nothing. *)
Lemma zone_key_change_not_detected :
  let s := __init__ true true false in
  let data := "ssp.zones.list.[1]" in
  "ssp.zones.list" ∈ LOOKUP_keys /\
  attrs s !! "_ssp.zones.list" = Some "" /\
  parsed_value data = "list.[1" /\
  result (_parse_message data) s = Ok (true, false) /\
  attrs (exec (_parse_message data) s) !! "_ssp.zones.list" = Some "" /\
  _loop (exec (_parse_message data) s) = Some [].
Proof.
  split_all; try (vm_compute; reflexivity).
  apply list_elem_of_In. vm_compute. tauto.
Qed.

(** Without an update callback a change is detected but not notified. *)
Example change_without_callback :
  let s := __init__ false true false in
  result (_parse_message "ssp.vol.[-20]") s = Ok (true, true) /\
  _loop (exec (_parse_message "ssp.vol.[-20]") s) = Some [].
Proof. split_all; vm_compute; reflexivity. Qed.

(** What the parser does with a message it matches to a key. *)
Lemma parse_message_matched data key old queue s :
  PyStr.startswith data "ssp.zones" = false ->
  matched_key data = Some key ->
  attrs s !! ("_" +:+ key) = Some old ->
  _loop s = Some queue ->
  let value := parsed_value data in
  let edge := String.eqb key "ssp.power" && String.eqb value "1"
              && String.eqb old "0" in
  let changed := negb (String.eqb old value) in
  result (_parse_message data) s = Ok (true, changed) /\
  attrs (exec (_parse_message data) s) = <["_" +:+ key := value]> (attrs s) /\
  _loop (exec (_parse_message data) s) =
    Some (queue ++ (if edge then [Later 1 cb_poweron_refresh] else [])
                ++ (if changed && _update_callback s
                    then [Soon (cb_update data)] else [])).
Proof.
  intros Hzone Hkey Hold Hloop value edge changed.
  destruct s as [lp clc uc buf names nums flag tr at_].
  cbn [attrs _loop _update_callback] in *. subst lp.
  unfold result, exec, _parse_message, mbind, M_bind.
  rewrite Hzone, Hkey. unfold getattr. cbn [attrs]. rewrite Hold.
  fold value. fold edge. fold changed.
  destruct edge, changed, uc; cbn; rewrite ?app_nil_r, <- ?app_assoc;
    split_all; reflexivity.
Qed.

(** The messages of ['ssp.input.list'] are matched by ['ssp.input'], which
    comes first in the schema: the value is stored under that key, and the
    entry of ['ssp.input.list'] stays empty whatever arrives for it. *)
Example input_list_change_not_detected :
  let data := "ssp.input.list.[HDMI 1]" in
  let s1 := exec (_parse_message data) (__init__ true true false) in
  attrs s1 !! "_ssp.input.list" = Some "" /\
  attrs s1 !! "_ssp.input" = Some "list.[HDMI 1" /\
  result (_parse_message data) s1 = Ok (true, false) /\
  attrs (exec (_parse_message data) s1) !! "_ssp.input.list" = Some "".
Proof. split_all; vm_compute; reflexivity. Qed.

(** Without an event loop a change that has something to schedule raises. *)
Example change_without_loop :
  result (_parse_message "ssp.vol.[-20]") (__init__ true false false)
  = Raise AttributeError.
Proof. vm_compute. reflexivity. Qed.

(** A message made of a schema key, a dot and a payload, and that does not
    begin with ['ssp.input.list']: either the key is ['ssp.zones.list'] and
    the message is zone-scoped, or the key is the first one of the schema
    the message starts with. *)
Lemma key_message_matched key rest :
  key ∈ LOOKUP_keys ->
  PyStr.startswith (key +:+ "." +:+ rest) "ssp.input.list" = false ->
  (key = "ssp.zones.list" /\
   PyStr.startswith (key +:+ "." +:+ rest) "ssp.zones" = true) \/
  (key <> "ssp.zones.list" /\
   PyStr.startswith (key +:+ "." +:+ rest) "ssp.zones" = false /\
   matched_key (key +:+ "." +:+ rest) = Some key).
Proof.
  intros Hin Hlist. apply list_elem_of_In in Hin.
  unfold LOOKUP_keys in Hin. cbn [map fst LOOKUP] in Hin.
  repeat (destruct Hin as [<- | Hin];
          [first [ right; split; [discriminate | split; reflexivity]
                 | left; split; reflexivity
                 | discriminate Hlist ] |]).
  destruct Hin.
Qed.

(** The value is stored before anything is scheduled, so it is stored
    whether or not the scheduling raises. *)
Lemma parse_message_stores data key old s :
  PyStr.startswith data "ssp.zones" = false ->
  matched_key data = Some key ->
  attrs s !! ("_" +:+ key) = Some old ->
  attrs (exec (_parse_message data) s)
  = <["_" +:+ key := parsed_value data]> (attrs s).
Proof.
  intros Hzone Hkey Hold.
  destruct s as [lp clc uc buf names nums flag tr at_]. cbn [attrs] in *.
  unfold exec, _parse_message, mbind, M_bind. rewrite Hzone, Hkey.
  unfold getattr. cbn [attrs]. rewrite Hold.
  unfold setattr, modify, gets, loop_call, mret, M_ret. cbn.
  destruct (_ && _), lp, (negb _), uc; reflexivity.
Qed.

(** A message that brings the value already stored reports no change and
    asks nothing of the event loop. *)
Lemma parse_message_same_value data key s :
  PyStr.startswith data "ssp.zones" = false ->
  matched_key data = Some key ->
  attrs s !! ("_" +:+ key) = Some (parsed_value data) ->
  result (_parse_message data) s = Ok (true, false) /\
  _loop (exec (_parse_message data) s) = _loop s.
Proof.
  intros Hzone Hkey Hold.
  destruct s as [lp clc uc buf names nums flag tr at_]. cbn [attrs] in *.
  unfold result, exec, _parse_message, mbind, M_bind. rewrite Hzone, Hkey.
  unfold getattr. cbn [attrs]. rewrite Hold.
  remember (parsed_value data) as value eqn:Hvalue. clear Hvalue Hold.
  rewrite String.eqb_refl.
  destruct (String.eqb_spec value "1") as [-> | _];
    rewrite ?andb_false_r; cbn; split; reflexivity.
Qed.

(** C7, amended: for every schema key [key] and every message made of the
    key, a dot and a payload, the messages that begin with
    ['ssp.input.list'] left out, with [parsed_value data] the value the
    parser reads from the message. If the key is ['ssp.zones.list'] the
    message is zone-scoped: it is recognized, reports no change, stores
    nothing and schedules nothing. For any other key the value is stored
    under the key; when it equals the stored one, no change is reported and
    nothing is scheduled; when it differs, on an instance that has an event
    loop, a change is reported and the loop receives, after the power-on
    request if this is a power-on edge, exactly one notification carrying
    the raw message if an update callback was supplied, none otherwise. *)
Theorem parse_change_detection (key rest old : string) (s : AVR) :
  key ∈ LOOKUP_keys ->
  PyStr.startswith (key +:+ "." +:+ rest) "ssp.input.list" = false ->
  attrs s !! ("_" +:+ key) = Some old ->
  let data := key +:+ "." +:+ rest in
  let value := parsed_value data in
  let s' := exec (_parse_message data) s in
  (key = "ssp.zones.list" ->
     _parse_message data s = (Ok (true, false), s)) /\
  (key <> "ssp.zones.list" ->
     attrs s' !! ("_" +:+ key) = Some value /\
     (old = value ->
        result (_parse_message data) s = Ok (true, false) /\
        _loop s' = _loop s) /\
     (old <> value ->
        forall queue : list scheduled,
        _loop s = Some queue ->
        result (_parse_message data) s = Ok (true, true) /\
        _loop s' =
          Some (queue
                ++ (if String.eqb key "ssp.power" && String.eqb value "1"
                       && String.eqb old "0"
                    then [Later 1 cb_poweron_refresh] else [])
                ++ (if _update_callback s
                    then [Soon (cb_update data)] else [])))).
Proof.
  intros Hin Hlist Hold data value s'.
  destruct (key_message_matched key rest Hin Hlist)
    as [[Hk Hzone] | (Hk & Hzone & Hkey)].
  { split; [intros _; apply parse_message_zone, Hzone | contradiction]. }
  split; [contradiction |]. intros _. split_all.
  - subst s'. rewrite (parse_message_stores data key old s Hzone Hkey Hold).
    apply lookup_insert_eq.
  - intros Heq. rewrite Heq in Hold.
    apply (parse_message_same_value data key s Hzone Hkey Hold).
  - intros Hne queue Hloop.
    destruct (parse_message_matched data key old queue s
                Hzone Hkey Hold Hloop) as (Hres & _ & Hq).
    fold value in Hres, Hq. fold s' in Hq. rewrite Hres, Hq.
    destruct (String.eqb_spec old value) as [E | _]; [contradiction |].
    split; reflexivity.
Qed.

Lemma parse_change_detection_witness :
  let s := __init__ true true false in
  let data := "ssp.vol" +:+ "." +:+ "[-20]" in
  ("ssp.vol" ∈ LOOKUP_keys /\
   PyStr.startswith data "ssp.input.list" = false /\
   attrs s !! ("_" +:+ "ssp.vol") = Some "") /\
  parsed_value data = "-20" /\
  attrs (exec (_parse_message data) s) !! ("_" +:+ "ssp.vol") = Some "-20" /\
  result (_parse_message data) s = Ok (true, true) /\
  _loop (exec (_parse_message data) s) = Some [Soon (cb_update data)].
Proof.
  assert (Hin : "ssp.vol" ∈ LOOKUP_keys)
    by (apply list_elem_of_In; vm_compute; tauto).
  assert (Hlist : PyStr.startswith ("ssp.vol" +:+ "." +:+ "[-20]")
                    "ssp.input.list" = false) by reflexivity.
  assert (Hold : attrs (__init__ true true false) !! ("_" +:+ "ssp.vol")
                 = Some "") by (vm_compute; reflexivity).
  assert (Hloop : _loop (__init__ true true false) = Some [])
    by (vm_compute; reflexivity).
  split; [split_all; assumption |].
  split; [reflexivity |].
  destruct (parse_change_detection "ssp.vol" "[-20]" ""
              (__init__ true true false) Hin Hlist Hold)
    as (_ & Hother).
  destruct Hother as (Hstored & _ & Hdiff); [discriminate |].
  split; [exact Hstored |].
  apply (Hdiff ltac:(discriminate) [] Hloop).
Defined.

(** X12: every schema key but the two shadowed ones is the key matched by
    its own messages: ['ssp.zones.list'] falls under the zone prefix, and
    ['ssp.input.list'] comes after its prefix ['ssp.input'] in the schema. *)
Lemma own_key_matched key rest :
  key ∈ LOOKUP_keys ->
  key <> "ssp.input.list" -> key <> "ssp.zones.list" ->
  PyStr.startswith (key +:+ "." +:+ rest) "ssp.zones" = false /\
  matched_key (key +:+ "." +:+ rest) = Some key.
Proof.
  intros Hin Hinput Hzones. apply list_elem_of_In in Hin.
  unfold LOOKUP_keys in Hin. cbn [map fst LOOKUP] in Hin.
  repeat (destruct Hin as [<- | Hin];
          [first [ split; reflexivity
                 | exfalso; apply Hinput; reflexivity
                 | exfalso; apply Hzones; reflexivity ] |]).
  destruct Hin.
Qed.

Example shadowed_keys :
  matched_key "ssp.input.list.[HDMI 1]" = Some "ssp.input" /\
  parsed_value "ssp.input.list.[HDMI 1]" = "list.[HDMI 1" /\
  PyStr.startswith "ssp.zones.list.[1]" "ssp.zones" = true.
Proof. split_all; reflexivity. Qed.

(** * Further properties *)

(** ** Calls that only send *)

Lemma append_written_nil s : append_written [] s = s.
Proof.
  unfold append_written.
  destruct s as [? ? ? ? ? ? ? [[w p] |] ?]; cbn; [| reflexivity].
  rewrite app_nil_r. reflexivity.
Qed.

Lemma append_written_app ws1 ws2 s :
  append_written ws2 (append_written ws1 s) = append_written (ws1 ++ ws2) s.
Proof.
  unfold append_written.
  destruct s as [? ? ? ? ? ? ? [[w p] |] ?]; cbn; [| reflexivity].
  rewrite <- app_assoc. reflexivity.
Qed.

Lemma command_appends cmd s : command cmd s = (Ok tt, append_written [cmd] s).
Proof. rewrite command_spec. reflexivity. Qed.

Lemma for_each_command_appends {A} (f : A -> payload) xs s :
  for_each xs (fun x => command (f x)) s = (Ok tt, append_written (f <$> xs) s).
Proof. rewrite for_each_command. reflexivity. Qed.

Lemma set_boolean_appends key value s :
  _set_boolean key value s =
  (Ok tt,
   append_written [Text (key +:+ (if is_True value then "1" else "0"))] s).
Proof.
  unfold _set_boolean. destruct (is_True value); apply command_appends.
Qed.

Lemma set_bounded_appends key lo hi text number :
  exists ws, forall s,
    set_bounded key lo hi text number s = (Ok tt, append_written ws s).
Proof.
  unfold set_bounded. destruct (as_int number) as [z |].
  - destruct ((lo <=? z) && (z <=? hi)).
    + eexists. intros s. apply command_appends.
    + exists []. intros s. rewrite append_written_nil. reflexivity.
  - exists []. intros s. rewrite append_written_nil. reflexivity.
Qed.

Lemma sending_calls_append c :
  sends_only c = true ->
  exists ws, forall s, run c s = (Ok tt, append_written ws s).
Proof.
  destruct c; try discriminate; intros _; cbn [run].
  - eexists. intros s. apply command_appends.
  - eexists. intros s. apply command_appends.
  - eexists. intros s. apply command_appends.
  - exists (Text <$> order). intros s. apply (for_each_command_appends Text).
  - exists (Text <$> LOOKUP_keys). intros s.
    apply (for_each_command_appends Text).
  - eexists. intros s.
    apply (for_each_command_appends
             (fun n => Text ("ISN" +:+ zfill 2 (pretty n)))).
  - unfold set_attenuation. destruct (as_int value) as [z |].
    + destruct ((-100 <? z) && (z <=? 0)).
      * eexists. intros s. apply command_appends.
      * exists []. intros s. rewrite append_written_nil. reflexivity.
    + exists []. intros s. rewrite append_written_nil. reflexivity.
  - unfold set_volume. destruct (as_int value) as [z |].
    + destruct ((0 <=? z) && (z <? 100)).
      * eexists. intros s. apply command_appends.
      * exists []. intros s. rewrite append_written_nil. reflexivity.
    + exists []. intros s. rewrite append_written_nil. reflexivity.
  - eexists. intros s. unfold set_power, mbind, M_bind.
    rewrite !set_boolean_appends, append_written_app. reflexivity.
  - eexists. intros s. apply set_boolean_appends.
  - eexists. intros s. apply set_boolean_appends.
  - eexists. intros s. apply set_boolean_appends.
  - eexists. intros s. apply set_boolean_appends.
  - apply set_bounded_appends.
  - apply set_bounded_appends.
  - apply set_bounded_appends.
  - apply set_bounded_appends.
Qed.






(** ** Setters and their ranges *)

(** X3: every setter that checks a range leaves the instance untouched,
    and returns normally, when handed a value that is not an integer or lies
    outside its range. *)
Theorem invalid_writes_are_ignored :
  Forall (fun '(setter, lo, hi) =>
            forall (value : pyval) (s : AVR),
              rejected lo hi value -> setter value s = (Ok tt, s))
         ranged_setters.
Proof.
  unfold ranged_setters, rejected.
  repeat constructor; intros value s H;
    unfold set_panel_brightness, set_audio_listening_mode,
           set_dolby_dynamic_range, set_input_number, set_bounded,
           set_volume, set_attenuation;
    destruct (as_int value) as [z |]; try reflexivity.
  all: match goal with
       | |- (if ?cond then _ else _) _ = _ =>
           replace cond with false; [reflexivity |]
       end.
  all: symmetry; apply andb_false_iff.
  all: destruct H as [H | H];
         [left | right]; first [apply Z.leb_gt | apply Z.ltb_ge]; lia.
Qed.

Lemma invalid_writes_are_ignored_witness :
  rejected 0 16 (PyInt 17) /\
  set_audio_listening_mode (PyInt 17) (__init__ true true false)
  = (Ok tt, __init__ true true false).
Proof.
  assert (H : rejected 0 16 (PyInt 17)) by (right; reflexivity).
  split; [exact H |].
  apply (List.Forall_inv (List.Forall_inv_tail invalid_writes_are_ignored)
           (PyInt 17) (__init__ true true false) H).
Defined.

Example listening_mode_17_ignored s :
  set_audio_listening_mode (PyInt 17) s = (Ok tt, s).
Proof. reflexivity. Qed.

(** X4: an integer between 0 and 16 assigned to [audio_listening_mode]
    makes exactly one write, ['Z1ALM'] followed by the number on two digits,
    which read back as the number. *)
Theorem listening_mode_in_range (z : Z) (s : AVR) (t : Transport) :
  0 <= z <= 16 ->
  transport s = Some t ->
  let text := zfill 2 (pretty z) in
  wire (exec (set_audio_listening_mode (PyInt z)) s)
    = written t ++ [Text ("Z1ALM" +:+ text)] /\
  String.length text = 2%nat /\
  PyStr.int_of_str text = Some z.
Proof.
  intros Hz Ht text. split.
  - unfold set_audio_listening_mode, set_bounded. cbn [as_int].
    replace ((0 <=? z) && (z <=? 16)) with true
      by (symmetry; apply andb_true_iff; split; apply Z.leb_le; lia).
    rewrite wire_command. unfold wire. rewrite Ht. reflexivity.
  - assert (Hn : exists n : nat, (n < 17)%nat /\ z = Z.of_nat n).
    { exists (Z.to_nat z). split; lia. }
    destruct Hn as (n & Hn & ->). subst text.
    do 17 (destruct n as [| n]; [split; vm_compute; reflexivity |]).
    lia.
Qed.

Lemma listening_mode_in_range_witness :
  let t := mkTransport [] false in
  let s := with_transport (Some t) (__init__ true true false) in
  (0 <= 5 <= 16 /\ transport s = Some t) /\
  wire (exec (set_audio_listening_mode (PyInt 5)) s)
    = written t ++ [Text ("Z1ALM" +:+ zfill 2 (pretty 5))] /\
  String.length (zfill 2 (pretty 5)) = 2%nat /\
  PyStr.int_of_str (zfill 2 (pretty 5)) = Some 5.
Proof.
  assert (Hz : 0 <= 5 <= 16) by lia.
  assert (Ht : transport (with_transport (Some (mkTransport [] false))
                            (__init__ true true false))
               = Some (mkTransport [] false)) by reflexivity.
  split; [split; [exact Hz | exact Ht] |].
  apply (listening_mode_in_range 5 _ _ Hz Ht).
Defined.

(** ** The read-only facade on an instance as the code builds it *)

(** Every attribute the constructor and the parser create is named
    ['_ssp.…']. *)
Lemma schema_attrs_prefix name :
  name ∈ schema_attrs -> PyStr.startswith name "_ssp." = true.
Proof.
  intros H. unfold schema_attrs in H. apply elem_of_list_to_set in H.
  apply list_elem_of_fmap in H as (key & -> & Hkey).
  assert (Hall : Forall (fun key => PyStr.startswith ("_" +:+ key) "_ssp."
                                    = true) LOOKUP_keys)
    by (repeat constructor).
  rewrite Forall_forall in Hall. apply Hall, Hkey.
Qed.

Lemma outside_schema name :
  PyStr.startswith name "_ssp." = false -> name ∉ schema_attrs.
Proof.
  intros H Hin. apply schema_attrs_prefix in Hin. congruence.
Qed.

Lemma text_property_unset attr default s :
  attrs s !! attr = None ->
  text_property attr default s = (Raise AttributeError, s).
Proof.
  intros H. unfold text_property, mbind, M_bind, getattr. rewrite H.
  reflexivity.
Qed.

(** X5: after any calls, reading any of the text properties ([model],
    [swversion], [region], [build_date], [hwversion], [macaddress],
    [audio_input_name], [audio_input_ratename]) raises [AttributeError]:
    the fallback text is never returned. *)
Theorem text_properties_always_raise (calls : list call) (u l c : bool) :
  let s := run_all calls (__init__ u l c) in
  Forall (fun prop : M string => prop s = (Raise AttributeError, s))
         text_properties.
Proof.
  intros s. pose proof (run_all_Inv calls u l c) as HInv. fold s in HInv.
  unfold text_properties.
  repeat (constructor;
          [apply text_property_unset, (unset_attribute _ _ HInv),
                 outside_schema; reflexivity |]).
  constructor.
Qed.

Lemma get_integer_unset key s :
  attrs s !! ("_" +:+ key) = None ->
  _get_integer key s = (Raise NameError, s).
Proof.
  intros H. unfold _get_integer, hasattr, mbind, M_bind, gets.
  rewrite H. reflexivity.
Qed.

(** X6: after any calls, reading any of the raw numeric properties
    ([dolby_dialog_normalization], [horizontal_resolution],
    [vertical_resolution], [audio_input_bitrate], [audio_input_samplerate],
    [input_number]) raises the unbound-local [NameError] of [_get_integer]:
    neither a number nor [None] is returned. *)
Theorem integer_properties_always_raise (calls : list call) (u l c : bool) :
  let s := run_all calls (__init__ u l c) in
  Forall (fun prop : M (option Z) => prop s = (Raise NameError, s))
         integer_properties.
Proof.
  intros s. pose proof (run_all_Inv calls u l c) as HInv. fold s in HInv.
  unfold integer_properties.
  repeat (constructor;
          [apply get_integer_unset, (unset_attribute _ _ HInv),
                 outside_schema; reflexivity |]).
  constructor.
Qed.

(** X7: on an attribute that exists and holds ASCII text, [_get_integer]
    never raises: it returns the integer the text denotes as [int] reads
    it (optional sign, decimal digits with single underscores between
    them, blanks around, at most 4300 digits), and [None] when the text
    denotes none. *)
Theorem get_integer_present (key value : string) (s : AVR) :
  attrs s !! ("_" +:+ key) = Some value ->
  PyStr.is_ascii value = true ->
  _get_integer key s = (Ok (PyStr.int_of_str value), s).
Proof.
  intros H _. unfold _get_integer, hasattr, mbind, M_bind, gets.
  rewrite H. cbn. unfold getattr. rewrite H.
  unfold try_except, int_, mret, M_ret, raise.
  destruct (PyStr.int_of_str value); reflexivity.
Qed.

Lemma get_integer_present_witness :
  let s := exec (_parse_message "ssp.vol.[-20]") (__init__ true true false) in
  (attrs s !! ("_" +:+ "ssp.vol") = Some "-20" /\
   PyStr.is_ascii "-20" = true) /\
  _get_integer "ssp.vol" s = (Ok (Some (-20)), s).
Proof.
  assert (H : attrs (exec (_parse_message "ssp.vol.[-20]")
                          (__init__ true true false))
              !! ("_" +:+ "ssp.vol") = Some "-20")
    by (vm_compute; reflexivity).
  assert (Ha : PyStr.is_ascii "-20" = true) by reflexivity.
  split; [split; [exact H | exact Ha] |].
  apply (get_integer_present "ssp.vol" "-20" _ H Ha).
Defined.

Lemma get_multiprop_unset key mode s :
  attrs s !! ("_" +:+ key) = None -> _get_multiprop key mode s = (Ok None, s).
Proof.
  intros H. unfold _get_multiprop, hasattr, mbind, M_bind, gets.
  rewrite H. reflexivity.
Qed.

(** X8: after any calls, each raw-or-text property of the facade (panel
    brightness, listening mode, dynamic range, video resolution, input
    channels, input format, raw and text) reads [None]. *)
Theorem multi_properties_always_none (calls : list call) (u l c : bool) :
  let s := run_all calls (__init__ u l c) in
  Forall (fun prop : M (option string) => prop s = (Ok None, s))
         multi_properties.
Proof.
  intros s. pose proof (run_all_Inv calls u l c) as HInv. fold s in HInv.
  unfold multi_properties.
  repeat (constructor;
          [apply get_multiprop_unset, (unset_attribute _ _ HInv),
                 outside_schema; reflexivity |]).
  constructor.
Qed.

(** X9: after any calls, the input directory is empty: [input_list] is the
    empty list, assigning any value to [input_name] does nothing, and
    reading [input_name] raises the [NameError] of [input_number]. *)
Theorem input_directory_always_empty (calls : list call) (u l c : bool) :
  let s := run_all calls (__init__ u l c) in
  input_list s = (Ok [], s) /\
  (forall value, set_input_name value s = (Ok tt, s)) /\
  input_name s = (Raise NameError, s).
Proof.
  intros s. pose proof (run_all_Inv calls u l c) as HInv. fold s in HInv.
  pose proof HInv as (_ & _ & Hnames & Hnums). split_all.
  - unfold input_list, gets. rewrite Hnums, map_to_list_empty. reflexivity.
  - intros value. unfold set_input_name, mbind, M_bind, gets. rewrite Hnums.
    destruct value as [b | z | name]; try reflexivity;
      rewrite lookup_empty; reflexivity.
  - unfold input_name, input_number, mbind, M_bind.
    rewrite get_integer_unset; [reflexivity |].
    apply (unset_attribute _ _ HInv), outside_schema. reflexivity.
Qed.

(** ** The parser and the state table *)

Lemma Inv_entry s key :
  Inv s -> key ∈ LOOKUP_keys -> is_Some (attrs s !! ("_" +:+ key)).
Proof.
  intros (Hdom & _) Hkey. apply elem_of_dom. rewrite Hdom.
  apply schema_attr_of_key, Hkey.
Qed.

Lemma get_multiprop_present key mode raw s :
  attrs s !! ("_" +:+ key) = Some raw ->
  _get_multiprop key mode s =
  (Ok (Some (if String.eqb mode "raw" then raw
             else match dict_get LOOKUP key with
                  | Some entry => default raw (dict_get entry raw)
                  | None => raw
                  end)), s).
Proof.
  intros H. unfold _get_multiprop, hasattr, mbind, M_bind, gets.
  rewrite H. cbn [bool_decide decide_rel is_Some_dec]. unfold getattr.
  rewrite H. unfold mret, M_ret.
  destruct (String.eqb mode "raw"); [reflexivity |].
  destruct (dict_get LOOKUP key) as [entry |]; [| reflexivity].
  destruct (dict_get entry raw); reflexivity.
Qed.

(** X10: what the parser stores is what the raw read returns: after a
    message matched to [key] has been parsed, the entry of [key] and
    [_get_multiprop(key, 'raw')] both give the value extracted from the
    message. *)
Theorem parsed_value_reads_back (data key : string) (s : AVR) :
  PyStr.startswith data "ssp.zones" = false ->
  matched_key data = Some key ->
  is_Some (attrs s !! ("_" +:+ key)) ->
  let s' := exec (_parse_message data) s in
  attrs s' !! ("_" +:+ key) = Some (parsed_value data) /\
  _get_multiprop key "raw" s' = (Ok (Some (parsed_value data)), s').
Proof.
  intros Hzone Hkey [old Hold] s'.
  assert (H : attrs s' !! ("_" +:+ key) = Some (parsed_value data)).
  { unfold s'. rewrite (parse_message_stores _ _ _ _ Hzone Hkey Hold).
    apply lookup_insert_eq. }
  split; [exact H |].
  rewrite (get_multiprop_present _ "raw" _ _ H). reflexivity.
Qed.

Lemma parsed_value_reads_back_witness :
  let s := __init__ false false false in
  let data := "ssp.procstate.[2]" in
  (PyStr.startswith data "ssp.zones" = false /\
   matched_key data = Some "ssp.procstate" /\
   is_Some (attrs s !! ("_" +:+ "ssp.procstate"))) /\
  attrs (exec (_parse_message data) s) !! ("_" +:+ "ssp.procstate")
    = Some (parsed_value data) /\
  _get_multiprop "ssp.procstate" "raw" (exec (_parse_message data) s)
    = (Ok (Some (parsed_value data)), exec (_parse_message data) s).
Proof.
  assert (Hzone : PyStr.startswith "ssp.procstate.[2]" "ssp.zones" = false)
    by reflexivity.
  assert (Hkey : matched_key "ssp.procstate.[2]" = Some "ssp.procstate")
    by reflexivity.
  assert (Hold : is_Some (attrs (__init__ false false false)
                            !! ("_" +:+ "ssp.procstate"))).
  { exists "". vm_compute. reflexivity. }
  split; [split_all; assumption |].
  apply (parsed_value_reads_back "ssp.procstate.[2]" "ssp.procstate" _
           Hzone Hkey Hold).
Defined.

(** The schema is a dictionary of dictionaries: every pair listed is the
    one a lookup finds. *)
Lemma LOOKUP_well_formed :
  Forall (fun '(key, entry) =>
            dict_get LOOKUP key = Some entry /\
            Forall (fun '(raw, label) => dict_get entry raw = Some label) entry)
         LOOKUP.
Proof. unfold LOOKUP. repeat constructor. Qed.

(** X11: for every key of the schema and every pair the schema lists
    under it (the value labels, and ['description'] itself), an entry
    holding the pair's first component reads as that text in raw mode and as
    the pair's second component in text mode. *)
Theorem schema_labels_read_as_text
    (key raw label : string) (entry : list (string * string)) (s : AVR) :
  In (key, entry) LOOKUP ->
  In (raw, label) entry ->
  attrs s !! ("_" +:+ key) = Some raw ->
  _get_multiprop key "raw" s = (Ok (Some raw), s) /\
  _get_multiprop key "text" s = (Ok (Some label), s).
Proof.
  intros Hentry Hpair Hraw.
  pose proof LOOKUP_well_formed as Hwf. rewrite Forall_forall in Hwf.
  apply list_elem_of_In in Hentry. specialize (Hwf _ Hentry) as (Hget & Hlab).
  rewrite Forall_forall in Hlab.
  apply list_elem_of_In in Hpair. specialize (Hlab _ Hpair). cbn in Hlab.
  rewrite !(get_multiprop_present _ _ _ _ Hraw). cbn [String.eqb Ascii.eqb].
  split; [reflexivity |].
  change (String.eqb "text" "raw") with false. cbv iota.
  rewrite Hget, Hlab. reflexivity.
Qed.

Lemma schema_labels_read_as_text_witness :
  let s := exec (_parse_message "ssp.procstate.[2]")
             (__init__ false false false) in
  let entry := [("description", "Processor Status"); ("0", "Off");
                ("1", "Starting / Stopping"); ("2", "On")] in
  (In ("ssp.procstate", entry) LOOKUP /\ In ("2", "On") entry /\
   attrs s !! ("_" +:+ "ssp.procstate") = Some "2") /\
  _get_multiprop "ssp.procstate" "raw" s = (Ok (Some "2"), s) /\
  _get_multiprop "ssp.procstate" "text" s = (Ok (Some "On"), s).
Proof.
  assert (H1 : In ("ssp.procstate",
                   [("description", "Processor Status"); ("0", "Off");
                    ("1", "Starting / Stopping"); ("2", "On")]) LOOKUP)
    by (left; reflexivity).
  assert (H2 : In ("2", "On")
                  [("description", "Processor Status"); ("0", "Off");
                   ("1", "Starting / Stopping"); ("2", "On")])
    by (right; right; right; left; reflexivity).
  assert (H3 : attrs (exec (_parse_message "ssp.procstate.[2]")
                           (__init__ false false false))
               !! ("_" +:+ "ssp.procstate") = Some "2")
    by (vm_compute; reflexivity).
  split; [split_all; assumption |].
  apply (schema_labels_read_as_text "ssp.procstate" "2" "On" _ _ H1 H2 H3).
Defined.

(** A value without label reads the same in both modes. *)
Example unlabelled_value_reads_raw :
  let s := exec (_parse_message "ssp.procstate.[7]")
             (__init__ false false false) in
  result (_get_multiprop "ssp.procstate" "text") s = Ok (Some "7").
Proof. vm_compute. reflexivity. Qed.

Lemma own_key_matched_witness :
  ("ssp.vol" ∈ LOOKUP_keys /\ "ssp.vol" <> "ssp.input.list"
   /\ "ssp.vol" <> "ssp.zones.list") /\
  PyStr.startswith ("ssp.vol" +:+ "." +:+ "[-20]") "ssp.zones" = false /\
  matched_key ("ssp.vol" +:+ "." +:+ "[-20]") = Some "ssp.vol".
Proof.
  assert (H1 : "ssp.vol" ∈ LOOKUP_keys).
  { apply list_elem_of_In. vm_compute. tauto. }
  assert (H2 : "ssp.vol" <> "ssp.input.list") by discriminate.
  assert (H3 : "ssp.vol" <> "ssp.zones.list") by discriminate.
  split; [split_all; assumption |].
  apply (own_key_matched "ssp.vol" "[-20]" H1 H2 H3).
Defined.

(** ** The power-on edge *)

Lemma pending_refreshes_loop queue extra s :
  pending_refreshes (with_loop (Some (queue ++ extra)) s)
  = (pending_refreshes (with_loop (Some queue) s)
     + length (filter (fun req => callback_of req = cb_poweron_refresh) extra))%nat.
Proof.
  unfold pending_refreshes. cbn [_loop with_loop].
  rewrite filter_app, length_app. reflexivity.
Qed.

(** X13: a message for ['ssp.power'] carrying ['1'] over a stored ['0']
    resets the refresh flag and puts exactly one more [poweron_refresh] on
    the loop, due after 1, ahead of the change notification. *)
Theorem power_edge_starts_refresh
    (rest : string) (queue : list scheduled) (s : AVR) :
  parsed_value ("ssp.power" +:+ rest) = "1" ->
  attrs s !! "_ssp.power" = Some "0" ->
  _loop s = Some queue ->
  let data := "ssp.power" +:+ rest in
  let s' := exec (_parse_message data) s in
  _poweron_refresh_successful s' = false /\
  _loop s' =
    Some (queue ++ [Later 1 cb_poweron_refresh]
                ++ (if _update_callback s then [Soon (cb_update data)] else [])) /\
  pending_refreshes s' = S (pending_refreshes s).
Proof.
  intros Hvalue Hold Hloop data s'.
  assert (Hzone : PyStr.startswith data "ssp.zones" = false) by reflexivity.
  assert (Hkey : matched_key data = Some "ssp.power")
    by (unfold data; destruct rest; reflexivity).
  destruct s as [lp clc uc buf names nums flag tr at_].
  cbn [attrs _loop _update_callback] in *. subst lp.
  subst s'. unfold exec, _parse_message, mbind, M_bind.
  rewrite Hzone, Hkey. unfold getattr. cbn [attrs].
  change ("_" +:+ "ssp.power") with "_ssp.power". rewrite Hold.
  subst data. rewrite Hvalue.
  unfold pending_refreshes.
  destruct uc; cbn; rewrite ?filter_app, ?length_app, <- ?app_assoc; cbn;
    split_all; try reflexivity;
    repeat case_decide; try congruence; cbn; lia.
Qed.

Lemma power_edge_starts_refresh_witness :
  let s := exec (_parse_message "ssp.power.[0]") (__init__ true true false) in
  (parsed_value ("ssp.power" +:+ ".[1]") = "1" /\
   attrs s !! "_ssp.power" = Some "0" /\
   _loop s = Some [Soon (cb_update "ssp.power.[0]")]) /\
  _poweron_refresh_successful
    (exec (_parse_message ("ssp.power" +:+ ".[1]")) s) = false /\
  _loop (exec (_parse_message ("ssp.power" +:+ ".[1]")) s) =
    Some ([Soon (cb_update "ssp.power.[0]")]
          ++ [Later 1 cb_poweron_refresh]
          ++ (if _update_callback s
              then [Soon (cb_update ("ssp.power" +:+ ".[1]"))] else [])) /\
  pending_refreshes (exec (_parse_message ("ssp.power" +:+ ".[1]")) s)
    = S (pending_refreshes s).
Proof.
  assert (H1 : parsed_value ("ssp.power" +:+ ".[1]") = "1") by reflexivity.
  assert (H2 : attrs (exec (_parse_message "ssp.power.[0]")
                           (__init__ true true false))
               !! "_ssp.power" = Some "0") by (vm_compute; reflexivity).
  assert (H3 : _loop (exec (_parse_message "ssp.power.[0]")
                           (__init__ true true false))
               = Some [Soon (cb_update "ssp.power.[0]")])
    by (vm_compute; reflexivity).
  split; [split_all; assumption |].
  apply (power_edge_starts_refresh ".[1]" _ _ H1 H2 H3).
Defined.

(** X14: nothing else starts the loop: if parsing a message changes the
    number of pending [poweron_refresh] requests, the message is matched to
    ['ssp.power'], carries ['1'], and the stored value was ['0']. A first
    ['1'] over the initial empty value starts nothing. *)
Theorem only_power_edge_starts_refresh (data : string) (s : AVR) :
  pending_refreshes (exec (_parse_message data) s) <> pending_refreshes s ->
  matched_key data = Some "ssp.power" /\
  parsed_value data = "1" /\
  attrs s !! "_ssp.power" = Some "0".
Proof.
  destruct s as [lp clc uc buf names nums flag tr at_].
  unfold exec, _parse_message, mbind, M_bind.
  destruct (PyStr.startswith data "ssp.zones");
    [cbn; intros H; contradiction |].
  destruct (matched_key data) as [key |]; [| cbn; intros H; contradiction].
  unfold getattr. cbn [attrs].
  destruct (at_ !! ("_" +:+ key)) as [old |] eqn:Hold;
    [| cbn; intros H; contradiction].
  destruct (String.eqb key "ssp.power" && String.eqb (parsed_value data) "1"
            && String.eqb old "0") eqn:Hedge.
  - intros _.
    apply andb_true_iff in Hedge as (Hedge & Ho).
    apply andb_true_iff in Hedge as (Hk & Hv).
    apply String.eqb_eq in Hk, Hv, Ho. subst key old.
    split_all; [reflexivity | exact Hv | exact Hold].
  - unfold pending_refreshes.
    destruct lp as [queue |], (negb (String.eqb old (parsed_value data))), uc;
      cbn; rewrite ?filter_app, ?length_app; cbn;
      repeat case_decide; try congruence; cbn;
      rewrite ?Nat.add_0_r; intros Hne; exfalso; apply Hne; reflexivity.
Qed.

Lemma only_power_edge_starts_refresh_witness :
  let s := exec (_parse_message "ssp.power.[0]") (__init__ true true false) in
  pending_refreshes (exec (_parse_message "ssp.power.[1]") s)
    <> pending_refreshes s /\
  matched_key "ssp.power.[1]" = Some "ssp.power" /\
  parsed_value "ssp.power.[1]" = "1" /\
  attrs s !! "_ssp.power" = Some "0".
Proof.
  assert (H : pending_refreshes
                (exec (_parse_message "ssp.power.[1]")
                   (exec (_parse_message "ssp.power.[0]")
                      (__init__ true true false)))
              <> pending_refreshes
                   (exec (_parse_message "ssp.power.[0]")
                      (__init__ true true false)))
    by (vm_compute; discriminate).
  split; [exact H |].
  apply (only_power_edge_starts_refresh "ssp.power.[1]" _ H).
Defined.

Example first_power_report_starts_nothing :
  _loop (exec (_parse_message "ssp.power.[1]") (__init__ false true false))
  = Some [].
Proof. vm_compute. reflexivity. Qed.

(** ** Parsing and the event loop *)

(** On an instance built by the code that has an event loop, parsing any
    message returns normally and leaves an instance of the same kind; the
    transport and the buffer are not touched. *)
Lemma parse_returns_with_loop (data : string) (s : AVR) :
  Inv s -> is_Some (_loop s) ->
  let s' := exec (_parse_message data) s in
  (exists flags, result (_parse_message data) s = Ok flags) /\
  Inv s' /\ is_Some (_loop s') /\
  transport s' = transport s /\ buffer s' = buffer s.
Proof.
  intros HInv [queue Hloop] s'.
  assert (HInv' : Inv s').
  { apply (preserves_parse_message Inv Inv_with_loop Inv_with_flag Inv_setattr),
      HInv. }
  split_all; [| exact HInv' | | |].
  all: subst s'; clear HInv'.
  all: destruct (PyStr.startswith data "ssp.zones") eqn:Hzone;
    [ unfold result, exec; rewrite (parse_message_zone _ _ Hzone); cbn;
      eauto | ].
  all: destruct (matched_key data) as [key |] eqn:Hkey;
    [ | unfold result, exec;
        rewrite (parse_message_unrecognized _ _ Hzone Hkey); cbn; eauto ].
  all: destruct (Inv_entry s key HInv (matched_key_in_LOOKUP _ _ Hkey))
    as [old Hold].
  all: destruct (parse_message_matched data key old queue s Hzone Hkey Hold
                   Hloop) as (Hres & _ & Hq).
  - eauto.
  - rewrite Hq. eauto.
  - destruct s as [lp clc uc buf names nums flag tr at_].
    cbn [attrs _loop] in *. subst lp.
    unfold exec, _parse_message, mbind, M_bind. rewrite Hzone, Hkey.
    unfold getattr. cbn [attrs]. rewrite Hold.
    unfold setattr, modify, gets, loop_call, mret, M_ret. cbn.
    destruct (_ && _), (negb _), uc; reflexivity.
  - destruct s as [lp clc uc buf names nums flag tr at_].
    cbn [attrs _loop] in *. subst lp.
    unfold exec, _parse_message, mbind, M_bind. rewrite Hzone, Hkey.
    unfold getattr. cbn [attrs]. rewrite Hold.
    unfold setattr, modify, gets, loop_call, mret, M_ret. cbn.
    destruct (_ && _), (negb _), uc; reflexivity.
Qed.

(** X15: without an event loop, a message that changes a value on an
    instance with an update callback makes [_parse_message] raise
    [AttributeError]; the new value is stored all the same. *)
Theorem parse_without_loop_raises (data key old : string) (s : AVR) :
  _loop s = None ->
  _update_callback s = true ->
  PyStr.startswith data "ssp.zones" = false ->
  matched_key data = Some key ->
  attrs s !! ("_" +:+ key) = Some old ->
  old <> parsed_value data ->
  result (_parse_message data) s = Raise AttributeError /\
  attrs (exec (_parse_message data) s) !! ("_" +:+ key)
    = Some (parsed_value data).
Proof.
  intros Hloop Hcb Hzone Hkey Hold Hne. split.
  - destruct s as [lp clc uc buf names nums flag tr at_].
    cbn [attrs _loop _update_callback] in *. subst lp uc.
    unfold result, _parse_message, mbind, M_bind. rewrite Hzone, Hkey.
    unfold getattr. cbn [attrs]. rewrite Hold.
    unfold setattr, modify, gets, loop_call, mret, M_ret. cbn.
    destruct (String.eqb_spec old (parsed_value data)) as [E | _];
      [contradiction |].
    destruct (_ && _); reflexivity.
  - rewrite (parse_message_stores _ _ _ _ Hzone Hkey Hold).
    apply lookup_insert_eq.
Qed.

Lemma parse_without_loop_raises_witness :
  let s := __init__ true false false in
  let data := "ssp.vol.[-20]" in
  (_loop s = None /\ _update_callback s = true /\
   PyStr.startswith data "ssp.zones" = false /\
   matched_key data = Some "ssp.vol" /\
   attrs s !! ("_" +:+ "ssp.vol") = Some "" /\
   "" <> parsed_value data) /\
  result (_parse_message data) s = Raise AttributeError /\
  attrs (exec (_parse_message data) s) !! ("_" +:+ "ssp.vol")
    = Some (parsed_value data).
Proof.
  assert (H1 : _loop (__init__ true false false) = None)
    by (vm_compute; reflexivity).
  assert (H2 : _update_callback (__init__ true false false) = true)
    by (vm_compute; reflexivity).
  assert (H3 : PyStr.startswith "ssp.vol.[-20]" "ssp.zones" = false)
    by reflexivity.
  assert (H4 : matched_key "ssp.vol.[-20]" = Some "ssp.vol") by reflexivity.
  assert (H5 : attrs (__init__ true false false) !! ("_" +:+ "ssp.vol")
               = Some "") by (vm_compute; reflexivity).
  assert (H6 : "" <> parsed_value "ssp.vol.[-20]") by discriminate.
  split; [split_all; assumption |].
  apply (parse_without_loop_raises "ssp.vol.[-20]" "ssp.vol" "" _
           H1 H2 H3 H4 H5 H6).
Defined.

(** ** A framing pass as a whole *)

(** Parsing neither reads nor writes the buffer and the reading flag. *)
Lemma parse_message_frame data B p s :
  _parse_message data (with_buffer B (with_paused p s)) =
  (result (_parse_message data) s,
   with_buffer B (with_paused p (exec (_parse_message data) s))).
Proof.
  destruct s as [lp clc uc buf names nums flag [[w rp] |] at_];
    unfold with_paused; cbn [transport with_transport with_buffer written];
    unfold result, exec, _parse_message, mbind, M_bind;
    (destruct (PyStr.startswith data "ssp.zones"); [reflexivity |]);
    (destruct (matched_key data) as [key |]; [| reflexivity]);
    unfold getattr; cbn [attrs with_buffer with_transport];
    (destruct (at_ !! ("_" +:+ key)) as [old |]; [| reflexivity]);
    unfold setattr, modify, gets, loop_call, mret, M_ret; cbn;
    destruct (_ && _), lp, (negb _), uc; reflexivity.
Qed.

Lemma parse_message_untouched data s :
  transport (exec (_parse_message data) s) = transport s /\
  buffer (exec (_parse_message data) s) = buffer s.
Proof.
  destruct s as [lp clc uc buf names nums flag tr at_].
  unfold exec, _parse_message, mbind, M_bind.
  destruct (PyStr.startswith data "ssp.zones"); [split; reflexivity |].
  destruct (matched_key data) as [key |]; [| split; reflexivity].
  unfold getattr. cbn [attrs].
  destruct (at_ !! ("_" +:+ key)) as [old |]; [| split; reflexivity].
  unfold setattr, modify, gets, loop_call, mret, M_ret. cbn.
  destruct (_ && _), lp, (negb _), uc; split; reflexivity.
Qed.

Lemma for_each_parse_frame msgs B p s :
  for_each msgs (fun message => _parse_message message ;; mret tt)
           (with_buffer B (with_paused p s)) =
  (result (for_each msgs (fun message => _parse_message message ;; mret tt)) s,
   with_buffer B (with_paused p
     (exec (for_each msgs (fun message => _parse_message message ;; mret tt)) s))).
Proof.
  revert s. induction msgs as [| message msgs IH]; intros s; [reflexivity |].
  cbn [for_each]. unfold result, exec, mbind, M_bind in *.
  rewrite parse_message_frame. unfold result, exec.
  destruct (_parse_message message s) as [[flags | e] s1]; cbn.
  - rewrite IH. reflexivity.
  - reflexivity.
Qed.

Lemma for_each_parse_untouched msgs s :
  transport (exec (for_each msgs
               (fun message => _parse_message message ;; mret tt)) s)
  = transport s.
Proof.
  revert s. induction msgs as [| message msgs IH]; intros s; [reflexivity |].
  cbn [for_each]. rewrite exec_bind.
  pose proof (parse_message_untouched message s) as (Htr & _).
  assert (Hstep : exec (_parse_message message ;; mret tt) s
                  = exec (_parse_message message) s).
  { unfold exec, mbind, M_bind.
    destruct (_parse_message message s) as [[flags | e] s1]; reflexivity. }
  destruct (result (_parse_message message ;; mret tt) s).
  - rewrite IH, Hstep. exact Htr.
  - rewrite Hstep. exact Htr.
Qed.

Lemma for_each_app_run {A} (xs ys : list A) body s :
  for_each (xs ++ ys) body s =
  match for_each xs body s with
  | (Ok _, s') => for_each ys body s'
  | (Raise e, s') => (Raise e, s')
  end.
Proof.
  revert s. induction xs as [| x xs IH]; intros s; [reflexivity |].
  cbn [for_each app]. unfold mbind, M_bind.
  destruct (body x s) as [[[] | e] s1]; [apply IH | reflexivity].
Qed.

(** One pass of the framer over an instance with a transport: the messages
    are parsed in order; if all return, the buffer is emptied and reading
    resumed; if one raises, the buffer is kept and reading stays paused. *)
Lemma framing_pass msgs B s t :
  transport s = Some t ->
  (transport_set_paused true ;;
   for_each msgs (fun message => _parse_message message ;; mret tt) ;;
   modify (with_buffer "") ;;
   transport_set_paused false) (with_buffer B s)
  = match for_each msgs (fun message => _parse_message message ;; mret tt) s with
    | (Ok _, s') => (Ok tt, with_buffer "" (with_paused false s'))
    | (Raise e, s') => (Raise e, with_buffer B (with_paused true s'))
    end.
Proof.
  intros Ht.
  pose proof (for_each_parse_untouched msgs s) as Htr. rewrite Ht in Htr.
  unfold mbind at 1, M_bind at 1.
  assert (Hpause : transport_set_paused true (with_buffer B s)
                   = (Ok tt, with_buffer B (with_paused true s))).
  { unfold transport_set_paused, with_paused.
    destruct s as [? ? ? ? ? ? ? tr ?]. cbn in *. subst tr. reflexivity. }
  rewrite Hpause. unfold mbind at 1, M_bind at 1.
  rewrite for_each_parse_frame. unfold result, exec in *.
  destruct (for_each msgs (fun message => _parse_message message ;; mret tt) s)
    as [[[] | e] s1]; cbn [fst snd] in *; [| reflexivity].
  unfold mbind, M_bind, modify, transport_set_paused, with_paused.
  destruct s1 as [? ? ? ? ? ? ? tr ?]. cbn in *. subst tr. reflexivity.
Qed.

Lemma data_received_framed d s t :
  PyStr.utf8_valid d = true ->
  transport s = Some t ->
  data_received d s
  = match for_each (framed_messages (buffer s +:+ d))
                   (fun message => _parse_message message ;; mret tt) s with
    | (Ok _, s') => (Ok tt, with_buffer "" (with_paused false s'))
    | (Raise e, s') =>
        (Raise e, with_buffer (buffer s +:+ d) (with_paused true s'))
    end.
Proof.
  intros Hd Ht. rewrite (data_received_decoded _ _ Hd).
  rewrite assemble_buffer_framed. cbn [buffer with_buffer].
  apply (framing_pass _ _ _ t Ht).
Qed.

Lemma for_each_parse_ready msgs s :
  Inv s -> is_Some (_loop s) ->
  result (for_each msgs (fun message => _parse_message message ;; mret tt)) s
    = Ok tt /\
  Inv (exec (for_each msgs
               (fun message => _parse_message message ;; mret tt)) s) /\
  is_Some (_loop (exec (for_each msgs
               (fun message => _parse_message message ;; mret tt)) s)).
Proof.
  revert s. induction msgs as [| message msgs IH]; intros s HInv Hloop.
  - split_all; [reflexivity | exact HInv | exact Hloop].
  - destruct (parse_returns_with_loop message s HInv Hloop)
      as ([flags Hres] & HInv' & Hloop' & _).
    cbn [for_each]. unfold result, exec, mbind, M_bind in *.
    destruct (_parse_message message s) as [[flags' | e] s1];
      cbn [fst snd] in *; [| discriminate].
    cbn. apply IH; assumption.
Qed.

Lemma frame_twice B B' p p' s :
  with_buffer B (with_paused p (with_buffer B' (with_paused p' s)))
  = with_buffer B (with_paused p s).
Proof.
  destruct s as [? ? ? ? ? ? ? [[w rp] |] ?]; reflexivity.
Qed.

Lemma ready_frame B p s : ready s -> ready (with_buffer B (with_paused p s)).
Proof.
  intros (HInv & Hloop & [t Ht]).
  destruct s as [? ? ? ? ? ? ? tr ?]. cbn in Ht. subst tr.
  unfold ready. split_all; [exact HInv | exact Hloop | eexists; reflexivity].
Qed.

Lemma data_received_on_ready_aux d s :
  ready s ->
  exists s1,
    for_each (framed_messages (buffer s +:+ d))
             (fun message => _parse_message message ;; mret tt) s
    = (Ok tt, s1) /\
    Inv s1 /\ is_Some (_loop s1) /\ transport s1 = transport s.
Proof.
  intros (HInv & Hloop & _).
  pose proof (for_each_parse_ready (framed_messages (buffer s +:+ d)) s
                HInv Hloop) as (Hres & HInv1 & Hloop1).
  pose proof (for_each_parse_untouched (framed_messages (buffer s +:+ d)) s)
    as Htr1.
  unfold result, exec in *.
  destruct (for_each (framed_messages (buffer s +:+ d))
              (fun message => _parse_message message ;; mret tt) s)
    as [[[] | e] s1]; cbn [fst snd] in *; [| discriminate].
  exists s1. split_all; [reflexivity | assumption | assumption | assumption].
Qed.

(** X16: on an instance built by the code, with an event loop and a
    transport, [data_received] returns normally for every chunk of
    well-formed UTF-8; it leaves the buffer empty and reading resumed,
    writes nothing to the transport, and the instance can take data again.
    A chunk that is not well-formed UTF-8 raises [UnicodeDecodeError] and
    leaves the instance as it was: the chunk is lost. *)
Theorem data_received_on_ready (d : string) (s : AVR) :
  ready s ->
  let s' := exec (data_received d) s in
  (PyStr.utf8_valid d = true ->
   result (data_received d) s = Ok tt /\
   buffer s' = "" /\
   reading_paused <$> transport s' = Some false /\
   written <$> transport s' = written <$> transport s /\
   ready s') /\
  (PyStr.utf8_valid d = false ->
   data_received d s = (Raise UnicodeDecodeError, s)).
Proof.
  intros Hready s'. split; [| apply data_received_undecodable].
  intros Hd. pose proof Hready as (HInv & Hloop & [t Ht]).
  pose proof (for_each_parse_ready (framed_messages (buffer s +:+ d)) s
                HInv Hloop) as (Hres & HInv1 & Hloop1).
  pose proof (for_each_parse_untouched (framed_messages (buffer s +:+ d)) s)
    as Htr1.
  subst s'. unfold result, exec in *.
  rewrite (data_received_framed d s t Hd Ht).
  destruct (for_each (framed_messages (buffer s +:+ d))
              (fun message => _parse_message message ;; mret tt) s)
    as [[[] | e] s1]; cbn [fst snd] in *; [| discriminate].
  rewrite Ht in Htr1.
  assert (Hready1 : ready s1)
    by (unfold ready; split_all; [| | eexists]; eassumption).
  split_all; try reflexivity.
  - destruct s1 as [? ? ? ? ? ? ? tr ?]. cbn in Htr1. subst tr. reflexivity.
  - rewrite Ht.
    destruct s1 as [? ? ? ? ? ? ? tr ?]. cbn in Htr1. subst tr. reflexivity.
  - apply ready_frame, Hready1.
Qed.

Lemma data_received_on_ready_witness :
  let s := exec (connection_made (mkTransport [] false) ["Z1POW"; "IDM"])
             (__init__ true true false) in
  let d := "ssp.vol.[-20]" +:+ NL +:+ "unknown" in
  let bad := String (ascii_of_nat 255) "" in
  ready s /\
  (result (data_received d) s = Ok tt /\
   buffer (exec (data_received d) s) = "" /\
   reading_paused <$> transport (exec (data_received d) s) = Some false /\
   written <$> transport (exec (data_received d) s) = written <$> transport s /\
   ready (exec (data_received d) s)) /\
  data_received bad s = (Raise UnicodeDecodeError, s).
Proof.
  assert (H : ready (exec (connection_made (mkTransport [] false)
                             ["Z1POW"; "IDM"]) (__init__ true true false))).
  { unfold ready. split_all.
    - apply (run_Inv (ConnectionMade _ _)), init_Inv.
    - eexists. vm_compute. reflexivity.
    - eexists. vm_compute. reflexivity. }
  split; [exact H |]. split.
  - apply (proj1 (data_received_on_ready
                    ("ssp.vol.[-20]" +:+ NL +:+ "unknown") _ H)).
    vm_compute. reflexivity.
  - apply (proj2 (data_received_on_ready (String (ascii_of_nat 255) "") _ H)).
    vm_compute. reflexivity.
Defined.

(** X17: chunk boundaries at line ends do not matter. On an instance that
    can take data and has an empty buffer, feeding a chunk of well-formed
    UTF-8 that ends with a line feed and then a second well-formed chunk
    leaves the instance exactly as feeding the two as one chunk does. *)
Theorem chunks_at_line_ends_compose (a b : string) (s : AVR) :
  ready s -> buffer s = "" ->
  PyStr.utf8_valid (a +:+ NL) = true -> PyStr.utf8_valid b = true ->
  exec (data_received b) (exec (data_received (a +:+ NL)) s)
  = exec (data_received (a +:+ NL +:+ b)) s.
Proof.
  intros Hready Hbuf Ha Hb. pose proof Hready as (HInv & Hloop & [t Ht]).
  assert (Hab : PyStr.utf8_valid (a +:+ NL +:+ b) = true).
  { pose proof (utf8_valid_app _ _ Ha Hb) as H.
    rewrite append_assoc in H. exact H. }
  (* the first chunk *)
  destruct (data_received_on_ready_aux (a +:+ NL) s Hready)
    as (s1 & Hfirst & HInv1 & Hloop1 & Htr1).
  rewrite Hbuf in Hfirst.
  change ("" +:+ a +:+ NL) with (a +:+ NL +:+ "") in Hfirst.
  rewrite framed_messages_line_end in Hfirst.
  change (framed_messages "") with (@nil string) in Hfirst.
  rewrite app_nil_r in Hfirst.
  assert (Hone : data_received (a +:+ NL) s
                 = (Ok tt, with_buffer "" (with_paused false s1))).
  { rewrite (data_received_framed _ s t Ha Ht), Hbuf.
    change ("" +:+ a +:+ NL) with (a +:+ NL +:+ "").
    rewrite framed_messages_line_end.
    change (framed_messages "") with (@nil string). rewrite app_nil_r.
    rewrite Hfirst. reflexivity. }
  assert (Hwhole : data_received (a +:+ NL +:+ b) s
                   = match for_each (framed_messages b)
                             (fun message => _parse_message message ;; mret tt)
                             s1 with
                     | (Ok _, s') =>
                         (Ok tt, with_buffer "" (with_paused false s'))
                     | (Raise e, s') =>
                         (Raise e,
                          with_buffer (a +:+ NL +:+ b) (with_paused true s'))
                     end).
  { rewrite (data_received_framed _ s t Hab Ht), Hbuf.
    change ("" +:+ a +:+ NL +:+ b) with (a +:+ NL +:+ b).
    rewrite framed_messages_line_end, for_each_app_run, Hfirst.
    reflexivity. }
  assert (Ht1 : transport (with_buffer "" (with_paused false s1))
                = Some (mkTransport (written t) false)).
  { rewrite Ht in Htr1.
    destruct s1 as [? ? ? ? ? ? ? tr ?]. cbn in Htr1. subst tr. reflexivity. }
  pose proof (for_each_parse_ready (framed_messages b) s1 HInv1 Hloop1)
    as (Hres & _).
  unfold exec. rewrite Hone. cbn [snd].
  rewrite Hwhole, (data_received_framed _ _ _ Hb Ht1).
  cbn [buffer with_buffer]. change ("" +:+ b) with b.
  rewrite for_each_parse_frame. unfold result, exec in *.
  destruct (for_each (framed_messages b)
              (fun message => _parse_message message ;; mret tt) s1)
    as [[[] | e] s2]; cbn [fst snd] in *; [| discriminate].
  apply frame_twice.
Qed.

Lemma chunks_at_line_ends_compose_witness :
  let s := exec (connection_made (mkTransport [] false) ["Z1POW"; "IDM"])
             (__init__ true true false) in
  (ready s /\ buffer s = "" /\
   PyStr.utf8_valid ("ssp.mute.[1]" +:+ NL) = true /\
   PyStr.utf8_valid "ssp.vol.[-20]" = true) /\
  exec (data_received "ssp.vol.[-20]")
       (exec (data_received ("ssp.mute.[1]" +:+ NL)) s)
  = exec (data_received ("ssp.mute.[1]" +:+ NL +:+ "ssp.vol.[-20]")) s.
Proof.
  assert (H : ready (exec (connection_made (mkTransport [] false)
                             ["Z1POW"; "IDM"]) (__init__ true true false))).
  { unfold ready. split_all.
    - apply (run_Inv (ConnectionMade _ _)), init_Inv.
    - eexists. vm_compute. reflexivity.
    - eexists. vm_compute. reflexivity. }
  assert (Hb : buffer (exec (connection_made (mkTransport [] false)
                               ["Z1POW"; "IDM"]) (__init__ true true false))
               = "") by (vm_compute; reflexivity).
  assert (Hv1 : PyStr.utf8_valid ("ssp.mute.[1]" +:+ NL) = true)
    by (vm_compute; reflexivity).
  assert (Hv2 : PyStr.utf8_valid "ssp.vol.[-20]" = true)
    by (vm_compute; reflexivity).
  split; [split_all; assumption |].
  apply (chunks_at_line_ends_compose "ssp.mute.[1]" "ssp.vol.[-20]" _
           H Hb Hv1 Hv2).
Defined.

(** X18: the two ways [data_received] can raise. When the chunk is not
    well-formed UTF-8 the exception is [UnicodeDecodeError] and the instance
    is untouched: the chunk is lost. Otherwise a message raised while it was
    parsed, and nothing is dropped: the buffer holds all it held plus the
    new text, and reading, if there is a transport, stays paused, so the
    next call parses that text again. *)
Theorem data_received_failure_outcome (d : string) (e : exn) (s : AVR) :
  result (data_received d) s = Raise e ->
  let s' := exec (data_received d) s in
  if PyStr.utf8_valid d
  then buffer s' = buffer s +:+ d /\
       reading_paused <$> transport s' = (fun _ => true) <$> transport s
  else e = UnicodeDecodeError /\ s' = s.
Proof.
  intros Hraise s'. subst s'. unfold result, exec in *.
  destruct (PyStr.utf8_valid d) eqn:Hd.
  2: { rewrite (data_received_undecodable _ _ Hd) in *. cbn [fst snd] in *.
       split; [congruence | reflexivity]. }
  destruct (transport s) as [t |] eqn:Ht.
  - pose proof (for_each_parse_untouched
                  (framed_messages (buffer s +:+ d)) s) as Htr.
    rewrite Ht in Htr. unfold exec in Htr.
    rewrite (data_received_framed d s t Hd Ht) in *.
    destruct (for_each (framed_messages (buffer s +:+ d))
                (fun message => _parse_message message ;; mret tt) s)
      as [[[] | e'] s1]; cbn [fst snd] in *; [discriminate |].
    destruct s1 as [? ? ? ? ? ? ? tr ?]. cbn in Htr. subst tr.
    split; reflexivity.
  - rewrite (data_received_decoded _ _ Hd) in *.
    unfold _assemble_buffer, mbind, M_bind, modify,
      transport_set_paused in *.
    destruct s as [? ? ? ? ? ? ? tr ?]. cbn in Ht. subst tr.
    split; reflexivity.
Qed.

Lemma data_received_failure_outcome_witness :
  let s := with_transport (Some (mkTransport [] false))
             (__init__ true false false) in
  let d := "ssp.vol.[-20]" +:+ NL in
  result (data_received d) s = Raise AttributeError /\
  buffer (exec (data_received d) s) = buffer s +:+ d /\
  reading_paused <$> transport (exec (data_received d) s)
    = (fun _ => true) <$> transport s.
Proof.
  assert (H : result (data_received ("ssp.vol.[-20]" +:+ NL))
                (with_transport (Some (mkTransport [] false))
                   (__init__ true false false))
              = Raise AttributeError) by (vm_compute; reflexivity).
  split; [exact H |].
  apply (data_received_failure_outcome _ AttributeError _ H).
Defined.

(** ** The two shadowed keys *)

Lemma startswith_app data k1 k2 :
  PyStr.startswith data (k1 +:+ k2) = true -> PyStr.startswith data k1 = true.
Proof.
  unfold PyStr.startswith. revert data.
  induction k1 as [| ch k1 IH]; intros data H.
  - destruct data; reflexivity.
  - destruct data as [| ch' data]; [discriminate |].
    change (String ch k1 +:+ k2) with (String ch (k1 +:+ k2)) in H.
    cbn [String.prefix] in *.
    destruct (ascii_dec ch ch'); [apply IH, H | discriminate].
Qed.

(** The parser never stores under ['ssp.input.list'] or
    ['ssp.zones.list']. *)
Lemma matched_key_not_shadowed data key :
  PyStr.startswith data "ssp.zones" = false ->
  matched_key data = Some key ->
  key <> "ssp.input.list" /\ key <> "ssp.zones.list".
Proof.
  intros Hzone. unfold matched_key, LOOKUP_keys. cbn [map fst LOOKUP find].
  repeat match goal with
         | |- (if PyStr.startswith data ?k then _ else _) = _ -> _ =>
             let E := fresh "E" in
             destruct (PyStr.startswith data k) eqn:E;
             [ intros Hk; injection Hk as <-;
               first [ split; discriminate
                     | exfalso;
                       first [ apply (startswith_app data "ssp.input" ".list") in E
                             | apply (startswith_app data "ssp.zones" ".list") in E ];
                       congruence ]
             | ]
         end.
  discriminate.
Qed.

Section StoredPreservation.

Variable P : AVR -> Prop.
Hypothesis P_loop : forall l s, P s -> P (with_loop l s).
Hypothesis P_buffer : forall b s, P s -> P (with_buffer b s).
Hypothesis P_transport : forall t s, P s -> P (with_transport t s).
Hypothesis P_flag : forall s, P s -> P (with_flag false s).
Hypothesis P_store : forall data key s,
  PyStr.startswith data "ssp.zones" = false ->
  matched_key data = Some key -> P s ->
  P (with_attrs (<["_" +:+ key := parsed_value data]> (attrs s)) s).

Lemma stored_parse_message data : preserves P (_parse_message data).
Proof.
  unfold _parse_message.
  apply preserves_bind.
  - destruct (PyStr.startswith data "ssp.zones") eqn:Hzone;
      [apply preserves_ret |].
    destruct (matched_key data) as [key |] eqn:Hkey; [| apply preserves_ret].
    apply preserves_bind; [apply preserves_getattr |]. intros oldvalue.
    apply preserves_bind.
    { intros s Hs. apply (P_store data key s Hzone Hkey Hs). }
    intros _. apply preserves_bind; [| intros _; apply preserves_ret].
    destruct (_ && _); [| apply preserves_ret].
    apply preserves_bind; [intros s Hs; apply P_flag, Hs |].
    intros _. apply preserves_loop_call, P_loop.
  - intros flags. apply preserves_bind; [| intros _; apply preserves_ret].
    destruct (snd flags); [| apply preserves_ret].
    apply preserves_bind; [apply preserves_gets |].
    intros [|]; [apply preserves_loop_call, P_loop | apply preserves_ret].
Qed.

Lemma stored_assemble_buffer : preserves P _assemble_buffer.
Proof.
  unfold _assemble_buffer.
  apply preserves_bind; [apply preserves_transport_set_paused, P_transport |].
  intros _. apply preserves_bind; [apply preserves_gets |]. intros buf.
  apply preserves_bind.
  { apply preserves_for_each. intros message.
    destruct (String.eqb message ""); [apply preserves_ret |].
    apply preserves_bind; [apply stored_parse_message |].
    intros _. apply preserves_ret. }
  intros _. apply preserves_bind; [intros s Hs; apply P_buffer, Hs |].
  intros _. apply preserves_transport_set_paused, P_transport.
Qed.

Lemma stored_run c : preserves P (run c).
Proof.
  destruct (sends_only c) eqn:Hsend.
  - destruct (sending_calls_append c Hsend) as [ws Hws].
    intros s Hs. unfold exec. rewrite Hws. unfold append_written.
    destruct (transport s); [apply P_transport |]; exact Hs.
  - destruct c; try discriminate; cbn [run].
    + apply preserves_bind; [intros s Hs; apply P_transport, Hs |]. intros _.
      apply preserves_bind; [apply preserves_command, P_transport |].
      intros _. apply preserves_for_each. intros item.
      apply preserves_query, P_transport.
    + apply preserves_bind; [apply preserves_decode |]. intros text.
      apply preserves_bind; [intros s Hs; apply P_buffer, Hs |]. intros _.
      apply stored_assemble_buffer.
    + apply preserves_bind; [intros s Hs; apply P_transport, Hs |]. intros _.
      apply preserves_bind; [apply preserves_gets |].
      intros [|]; [apply preserves_loop_call, P_loop | apply preserves_ret].
    + intros s Hs. unfold exec, fire.
      destruct (_loop s) as [queue |]; [| exact Hs].
      destruct (queue !! i) as [req |]; [| exact Hs].
      destruct (callback_of req); cbn [run_callback];
        [apply (preserves_poweron_refresh P P_loop P_transport) | |];
        apply P_loop, Hs.
    + apply preserves_bind; [apply stored_parse_message |].
      intros _. apply preserves_ret.
    + apply stored_assemble_buffer.
    + apply (preserves_poweron_refresh P P_loop P_transport).
    + apply preserves_bind; [apply preserves_global_attr |].
      intros _. apply preserves_ret.
Qed.

Lemma stored_run_all calls s : P s -> P (run_all calls s).
Proof.
  revert s. induction calls as [| c calls IH]; intros s Hs; cbn.
  - exact Hs.
  - apply IH, stored_run, Hs.
Qed.

End StoredPreservation.

(** X19: the entries of ['ssp.input.list'] and ['ssp.zones.list'] are
    never written: after any calls both still hold the empty string. *)
Theorem shadowed_keys_never_observed (calls : list call) (u l c : bool) :
  let s := run_all calls (__init__ u l c) in
  attrs s !! "_ssp.input.list" = Some "" /\
  attrs s !! "_ssp.zones.list" = Some "".
Proof.
  intros s. subst s.
  apply (stored_run_all
           (fun s => attrs s !! "_ssp.input.list" = Some "" /\
                     attrs s !! "_ssp.zones.list" = Some ""));
    try (intros; assumption).
  - intros data key s Hzone Hkey (Hi & Hz).
    destruct (matched_key_not_shadowed data key Hzone Hkey) as (Hni & Hnz).
    cbn [attrs with_attrs].
    rewrite !lookup_insert_ne; [split; assumption | |].
    + intros E. apply Hnz. injection E as E. exact E.
    + intros E. apply Hni. injection E as E. exact E.
  - split.
    + apply (init_entries u l c "ssp.input.list").
      apply list_elem_of_In. vm_compute. tauto.
    + apply (init_entries u l c "ssp.zones.list").
      apply list_elem_of_In. vm_compute. tauto.
Qed.

(** ** The refresh requests on the loop *)

Lemma loop_extends_same s s' : _loop s' = _loop s -> loop_extends s s'.
Proof.
  intros H. exists []. rewrite H. destruct (_loop s); cbn; [| reflexivity].
  rewrite app_nil_r. reflexivity.
Qed.

Lemma loop_extends_trans s1 s2 s3 :
  loop_extends s1 s2 -> loop_extends s2 s3 -> loop_extends s1 s3.
Proof.
  intros [e1 H1] [e2 H2]. exists (e1 ++ e2). rewrite H2, H1.
  destruct (_loop s1); cbn; [| reflexivity]. rewrite app_assoc. reflexivity.
Qed.

Lemma loop_extends_pending s s' :
  loop_extends s s' -> (pending_refreshes s <= pending_refreshes s')%nat.
Proof.
  intros [extra H]. unfold pending_refreshes. rewrite H.
  destruct (_loop s); cbn; [| lia].
  rewrite filter_app, length_app. lia.
Qed.

Lemma parse_message_extends data s : loop_extends s (exec (_parse_message data) s).
Proof.
  destruct s as [lp clc uc buf names nums flag tr at_].
  unfold loop_extends, exec, _parse_message, mbind, M_bind.
  destruct (PyStr.startswith data "ssp.zones");
    [apply (loop_extends_same _ _ eq_refl) |].
  destruct (matched_key data) as [key |];
    [| apply (loop_extends_same _ _ eq_refl)].
  unfold getattr. cbn [attrs].
  destruct (at_ !! ("_" +:+ key)) as [old |];
    [| apply (loop_extends_same _ _ eq_refl)].
  unfold setattr, modify, gets, loop_call, mret, M_ret. cbn.
  destruct (_ && _), lp as [queue |], (negb _), uc; cbn;
    rewrite <- ?app_assoc;
    first [ exists []; cbn; rewrite ?app_nil_r; reflexivity
          | eexists; reflexivity ].
Qed.

Lemma for_each_parse_extends msgs s :
  loop_extends s
    (exec (for_each msgs (fun message => _parse_message message ;; mret tt)) s).
Proof.
  revert s. induction msgs as [| message msgs IH]; intros s.
  - apply (loop_extends_same _ _ eq_refl).
  - cbn [for_each]. rewrite exec_bind.
    assert (Hstep : exec (_parse_message message ;; mret tt) s
                    = exec (_parse_message message) s).
    { unfold exec, mbind, M_bind.
      destruct (_parse_message message s) as [[flags | e] s1]; reflexivity. }
    rewrite Hstep.
    destruct (result (_parse_message message ;; mret tt) s).
    + eapply loop_extends_trans; [apply parse_message_extends | apply IH].
    + apply parse_message_extends.
Qed.

Lemma assemble_buffer_extends s : loop_extends s (exec _assemble_buffer s).
Proof.
  destruct (transport s) as [t |] eqn:Ht.
  - pose proof (framing_pass (framed_messages (buffer s)) (buffer s) s t Ht)
      as Hpass.
    replace (with_buffer (buffer s) s) with s in Hpass
      by (destruct s; reflexivity).
    unfold exec. rewrite assemble_buffer_framed, Hpass. clear Hpass.
    pose proof (for_each_parse_extends (framed_messages (buffer s)) s)
      as [extra Hext].
    unfold exec in Hext.
    destruct (for_each (framed_messages (buffer s))
                (fun message => _parse_message message ;; mret tt) s)
      as [[[] | e] s1]; cbn [fst snd] in *; exists extra; rewrite <- Hext;
      destruct s1 as [? ? ? ? ? ? ? [[w rp] |] ?]; reflexivity.
  - apply loop_extends_same. unfold exec, _assemble_buffer, mbind, M_bind,
      transport_set_paused. rewrite Ht. reflexivity.
Qed.

Lemma delete_pending_refresh (queue : list scheduled) i req :
  queue !! i = Some req ->
  callback_of req = cb_poweron_refresh ->
  length (filter (fun r => callback_of r = cb_poweron_refresh) queue)
  = S (length (filter (fun r => callback_of r = cb_poweron_refresh)
                 (delete i queue))).
Proof.
  intros Hi Hreq. revert i Hi.
  induction queue as [| r queue IH]; intros i Hi; [discriminate |].
  destruct i as [| i]; cbn in Hi.
  - injection Hi as ->. cbn [delete list_delete].
    rewrite filter_cons_True by exact Hreq. reflexivity.
  - cbn [delete list_delete].
    destruct (decide (callback_of r = cb_poweron_refresh)) as [Hr | Hr].
    + rewrite !filter_cons_True by exact Hr. cbn [length].
      f_equal. apply IH, Hi.
    + rewrite !filter_cons_False by exact Hr. apply IH, Hi.
Qed.

Lemma delete_pending_other (queue : list scheduled) i req :
  queue !! i = Some req ->
  callback_of req <> cb_poweron_refresh ->
  length (filter (fun r => callback_of r = cb_poweron_refresh)
            (delete i queue))
  = length (filter (fun r => callback_of r = cb_poweron_refresh) queue).
Proof.
  intros Hi Hreq. revert i Hi.
  induction queue as [| r queue IH]; intros i Hi; [discriminate |].
  destruct i as [| i]; cbn in Hi.
  - injection Hi as ->. cbn [delete list_delete].
    rewrite filter_cons_False by exact Hreq. reflexivity.
  - cbn [delete list_delete].
    destruct (decide (callback_of r = cb_poweron_refresh)) as [Hr | Hr].
    + rewrite !filter_cons_True by exact Hr. cbn [length].
      f_equal. apply IH, Hi.
    + rewrite !filter_cons_False by exact Hr. apply IH, Hi.
Qed.

(** X20: on an instance built by the code, no call makes the number of
    [poweron_refresh] requests pending on the loop smaller: a request that
    the loop runs puts itself back, and nothing else removes one. *)
Theorem pending_refreshes_never_decrease (c : call) (s : AVR) :
  reachable s ->
  (pending_refreshes s <= pending_refreshes (exec (run c) s))%nat.
Proof.
  intros Hreach. apply reachable_Inv in Hreach as (_ & Hflag & _).
  destruct (sends_only c) eqn:Hsend.
  { destruct (sending_calls_append c Hsend) as [ws Hws].
    apply loop_extends_pending, loop_extends_same.
    unfold exec. rewrite Hws. unfold append_written.
    destruct (transport s); reflexivity. }
  destruct c; try discriminate; cbn [run].
  - apply loop_extends_pending, loop_extends_same.
    unfold exec, connection_made, refresh_core, query, mbind, M_bind, modify.
    rewrite command_appends, for_each_command_appends. reflexivity.
  - apply loop_extends_pending.
    destruct (PyStr.utf8_valid data) eqn:Hdata.
    + unfold exec. rewrite (data_received_decoded _ _ Hdata).
      apply (assemble_buffer_extends (with_buffer (buffer s +:+ data) s)).
    + unfold exec. rewrite (data_received_undecodable _ _ Hdata).
      apply loop_extends_same. reflexivity.
  - apply loop_extends_pending.
    unfold exec, connection_lost, mbind, M_bind, modify, gets, loop_call.
    destruct s as [[queue |] [|] ? ? ? ? ? ? ?]; unfold loop_extends; cbn;
      first [ exists []; cbn; rewrite ?app_nil_r; reflexivity
            | eexists; reflexivity ].
  - unfold exec, fire.
    destruct (_loop s) as [queue |] eqn:Hloop; [| apply le_n].
    destruct (queue !! i) as [req |] eqn:Hi; [| apply le_n].
    unfold pending_refreshes at 1. rewrite Hloop.
    destruct (callback_of req) eqn:Hcb; cbn [run_callback].
    + destruct (poweron_refresh_retries
                  (with_loop (Some (delete i queue)) s) Hflag) as (_ & Hq).
      unfold exec in Hq. unfold pending_refreshes. rewrite Hq.
      clear Hq.
      cbn [_loop with_loop fmap option_fmap option_map].
      rewrite filter_app, length_app.
      rewrite (delete_pending_refresh queue i req Hi Hcb).
      rewrite filter_cons_True by reflexivity. cbn [length].
      rewrite Nat.add_1_r. apply le_n.
    + unfold pending_refreshes. cbn [_loop with_loop exec snd mret M_ret].
      rewrite (delete_pending_other queue i req Hi)
        by (rewrite Hcb; discriminate).
      apply le_n.
    + unfold pending_refreshes. cbn [_loop with_loop exec snd mret M_ret].
      rewrite (delete_pending_other queue i req Hi)
        by (rewrite Hcb; discriminate).
      apply le_n.
  - apply loop_extends_pending.
    assert (Hstep : exec (_parse_message data ;; mret tt) s
                    = exec (_parse_message data) s).
    { unfold exec, mbind, M_bind.
      destruct (_parse_message data s) as [[flags | e] s1]; reflexivity. }
    rewrite Hstep. apply parse_message_extends.
  - apply loop_extends_pending, assemble_buffer_extends.
  - apply loop_extends_pending.
    destruct (poweron_refresh_retries s Hflag) as (_ & Hq).
    eexists. exact Hq.
  - apply loop_extends_pending, (loop_extends_same _ _ eq_refl).
Qed.

Lemma pending_refreshes_never_decrease_witness :
  let s := exec (run (DataReceived
                        ("ssp.power.[0]" +:+ NL +:+ "ssp.power.[1]" +:+ NL)))
             (exec (run (ConnectionMade (mkTransport [] false) []))
                (__init__ false true false)) in
  reachable s /\
  (pending_refreshes s <= pending_refreshes (exec (run (Fire 0)) s))%nat.
Proof.
  assert (H : reachable
    (exec (run (DataReceived
                  ("ssp.power.[0]" +:+ NL +:+ "ssp.power.[1]" +:+ NL)))
       (exec (run (ConnectionMade (mkTransport [] false) []))
          (__init__ false true false)))).
  { apply reachable_call, reachable_call, reachable_init. }
  split; [exact H |].
  apply (pending_refreshes_never_decrease (Fire 0) _ H).
Defined.

Example refresh_request_comes_back :
  let s := exec (run (DataReceived
                        ("ssp.power.[0]" +:+ NL +:+ "ssp.power.[1]" +:+ NL)))
             (exec (run (ConnectionMade (mkTransport [] false) []))
                (__init__ false true false)) in
  _loop s = Some [Later 1 cb_poweron_refresh] /\
  _loop (exec (run (Fire 0)) s) = Some [Later 2 cb_poweron_refresh].
Proof. split_all; vm_compute; reflexivity. Qed.

(** ** Lines outside the schema *)

Lemma non_ssp_unmatched data :
  PyStr.startswith data "ssp." = false ->
  PyStr.startswith data "ssp.zones" = false /\ matched_key data = None.
Proof.
  intros Hssp. split.
  - destruct (PyStr.startswith data "ssp.zones") eqn:E; [| reflexivity].
    apply (startswith_app data "ssp." "zones") in E. congruence.
  - unfold matched_key, LOOKUP_keys. cbn [map fst LOOKUP find].
    repeat match goal with
           | |- (if PyStr.startswith data ?k then _ else _) = _ =>
               let E := fresh "E" in
               destruct (PyStr.startswith data k) eqn:E;
               [ apply (startswith_app data "ssp." _) in E; congruence | ]
           end.
    reflexivity.
Qed.

(** X21: a message that does not start with ['ssp.'] is not recognized
    and leaves the instance exactly as it was: nothing is stored, nothing is
    scheduled, nothing is raised. *)
Theorem foreign_message_changes_nothing (data : string) (s : AVR) :
  PyStr.startswith data "ssp." = false ->
  _parse_message data s = (Ok (false, false), s).
Proof.
  intros Hssp. destruct (non_ssp_unmatched data Hssp) as (Hzone & Hkey).
  apply parse_message_unrecognized; assumption.
Qed.

Lemma foreign_message_changes_nothing_witness :
  PyStr.startswith "Z1POW1" "ssp." = false /\
  _parse_message "Z1POW1" (__init__ true false false)
  = (Ok (false, false), __init__ true false false).
Proof.
  split; [reflexivity |].
  apply (foreign_message_changes_nothing "Z1POW1"). reflexivity.
Defined.

(** ** Boolean setters *)

(** X22: a boolean setter writes the key followed by ['1'] for the value
    [True] and by ['0'] for every other value, truthy ones included. *)
Theorem boolean_setters_test_identity :
  Forall (fun '(setter, key) =>
            forall (value : pyval) (s : AVR) (t : Transport),
              transport s = Some t ->
              (value = PyBool true ->
                 wire (exec (setter value) s)
                 = written t ++ [Text (key +:+ "1")]) /\
              (value <> PyBool true ->
                 wire (exec (setter value) s)
                 = written t ++ [Text (key +:+ "0")]))
         boolean_setters.
Proof.
  unfold boolean_setters.
  repeat (apply List.Forall_cons); try apply List.Forall_nil.
  all: cbv beta iota; intros value s t Ht.
  all: unfold set_txstatus, set_standby_control, set_arc, set_mute, exec, wire.
  all: rewrite set_boolean_appends; unfold append_written; rewrite Ht.
  all: cbn [snd transport with_transport written].
  all: split; [intros -> | intros Hne]; [reflexivity |].
  all: destruct value as [[|] | z | txt]; try reflexivity.
  all: exfalso; apply Hne; reflexivity.
Qed.

Lemma boolean_setters_test_identity_witness :
  let t := mkTransport [] false in
  let s := with_transport (Some t) (__init__ true true false) in
  (transport s = Some t /\ PyInt 1 <> PyBool true) /\
  wire (exec (set_txstatus (PyInt 1)) s) = written t ++ [Text ("ECH" +:+ "0")].
Proof.
  assert (Ht : transport (with_transport (Some (mkTransport [] false))
                            (__init__ true true false))
               = Some (mkTransport [] false)) by reflexivity.
  assert (Hne : PyInt 1 <> PyBool true) by discriminate.
  split; [split; assumption |].
  apply (List.Forall_inv boolean_setters_test_identity (PyInt 1) _ _ Ht), Hne.
Defined.

Example mute_with_one_unmutes :
  wire (exec (set_mute (PyInt 1))
          (with_transport (Some (mkTransport [] false))
                          (__init__ true true false)))
  = [Text "Z1MUT0"].
Proof. vm_compute. reflexivity. Qed.

(** ** Losing the connection *)

(** X23: [connection_lost] always detaches the transport and never
    touches the state table; it raises, with [AttributeError], exactly when
    a callback was supplied but no event loop, and otherwise schedules the
    callback once if there is one. *)
Theorem connection_lost_outcome (s : AVR) :
  let s' := exec connection_lost s in
  transport s' = None /\
  attrs s' = attrs s /\
  (result connection_lost s = Raise AttributeError <->
     _connection_lost_callback s = true /\ _loop s = None) /\
  _loop s' =
    (fun queue =>
       queue ++ (if _connection_lost_callback s
                 then [Soon cb_connection_lost] else []))
    <$> _loop s.
Proof.
  unfold exec, result, connection_lost, mbind, M_bind, modify, gets, loop_call.
  destruct s as [[queue |] [|] ? ? ? ? ? ? ?]; cbn;
    rewrite ?app_nil_r; split_all; try reflexivity;
    split; try discriminate; try tauto;
    intros (H1 & H2); discriminate.
Qed.

(** ** The attributes that exist *)

(** X24: no attribute is ever added: after any calls, every attribute
    made by [setattr] is ['_'+key] for a key of the schema. *)
Theorem only_schema_attributes_exist
    (calls : list call) (u l c : bool) (name : string) :
  is_Some (attrs (run_all calls (__init__ u l c)) !! name) ->
  exists key, key ∈ LOOKUP_keys /\ name = "_" +:+ key.
Proof.
  intros H. destruct (run_all_Inv calls u l c) as (Hdom & _).
  apply elem_of_dom in H. rewrite Hdom in H.
  unfold schema_attrs in H. apply elem_of_list_to_set in H.
  apply list_elem_of_fmap in H as (key & -> & Hkey).
  exists key. split; [exact Hkey | reflexivity].
Qed.

Lemma only_schema_attributes_exist_witness :
  is_Some (attrs (run_all [ParseMessage "ssp.vol.[-20]"]
                    (__init__ true true false)) !! "_ssp.vol") /\
  exists key, key ∈ LOOKUP_keys /\ "_ssp.vol" = "_" +:+ key.
Proof.
  assert (H : is_Some (attrs (run_all [ParseMessage "ssp.vol.[-20]"]
                                (__init__ true true false)) !! "_ssp.vol")).
  { exists "-20". vm_compute. reflexivity. }
  split; [exact H |].
  apply (only_schema_attributes_exist [ParseMessage "ssp.vol.[-20]"]
           true true false "_ssp.vol" H).
Defined.
